(** * wikigoapi: the sparse title index and the bounded block scan

    A shallow embedding of [main.go]: the index loader [loadIndex], the
    lookups [fetchArticle], [randomArticleHash], [randomArticle] and the
    block reader [readArticle], with the properties the design document
    states about them.

    Conventions.
    - A Go [string] is a byte sequence: [string] of the Standard Library,
      whose characters are the 256 byte values.
    - Go's [int] is the 64-bit signed integer (the program targets a 64-bit
      platform): a [Z] kept in range by [int_wrap].  A [uint64] is an [N].
    - A Go function returning [(T, error)] returns a pair [T * option error],
      [None] being the [nil] error; the [T] returned next to an error is the
      zero value the source writes there.
    - [mu.offsets] and [mu.offsetSize] are [gmap]s; reading a missing key
      gives the zero value and does not insert it, as in Go.
    - Functions of packages outside the repository are either given by their
      documented behaviour ([strings.Split], [strings.Join], [strconv.Atoi])
      or taken as parameters ([cityhash.Hash64], [strings.ToLower],
      [strings.Title], the file, the bzip2 reader and the XML decoder). *)

From Stdlib Require Import ZArith NArith Ascii String List Lia Bool.
From stdpp Require Import base option list gmap fin_maps strings numbers.

Open Scope Z_scope.

(** ** Go values *)

(** The errors the program returns.  [ErrParts], [ErrNoArticles] and
    [ErrTries] are the three [errors.Errorf] calls, [ErrStatus] is
    [statusErrorf], [ErrSyntax] and [ErrRange] are the two [*NumError] of
    [strconv.Atoi], and [ErrExt] is an error of a collaborator (file system,
    bzip2, XML, bleve, scanner), passed through unchanged. *)
Inductive error : Type :=
| ErrParts (parts : list string)
| ErrSyntax (s : string)
| ErrRange (s : string)
| ErrStatus (code : Z) (name : string)
| ErrNoArticles
| ErrTries (maxTries : Z)
| ErrExt (msg : string).

Definition StatusNotFound : Z := 404.

Definition minInt : Z := - 2 ^ 63.
Definition maxInt : Z := 2 ^ 63 - 1.

(** Two's complement wrap-around of Go's [int] arithmetic. *)
Definition int_wrap (z : Z) : Z := (z + 2 ^ 63) mod 2 ^ 64 - 2 ^ 63.

(** ** Package [strings] and [strconv] *)

Definition colon : ascii := ":"%char.

(** [strings.Split(s, sep)] for a one-byte separator: the substrings between
    the separators, always at least one. *)
Fixpoint Split (s : string) (sep : ascii) : list string :=
  match s with
  | EmptyString => [EmptyString]
  | String c r =>
      if Ascii.eqb c sep then EmptyString :: Split r sep
      else match Split r sep with
           | p :: ps => String c p :: ps
           | [] => [String c EmptyString]
           end
  end.

(** [strings.Join(elems, sep)]. *)
Fixpoint Join (elems : list string) (sep : string) : string :=
  match elems with
  | [] => EmptyString
  | [p] => p
  | p :: ps => String.append p (String.append sep (Join ps sep))
  end.

Definition digit (c : ascii) : option Z :=
  let n := Z.of_N (N_of_ascii c) in
  if (48 <=? n) && (n <=? 57) then Some (n - 48) else None.

Fixpoint digits (s : string) (acc : Z) : option Z :=
  match s with
  | EmptyString => Some acc
  | String c r =>
      match digit c with
      | Some d => digits r (acc * 10 + d)
      | None => None
      end
  end.

(** [strconv.Atoi]: an optional sign, then one or more decimal digits and
    nothing else; a value that does not fit [int] is a range error. *)
Definition Atoi (s : string) : Z * option error :=
  match s with
  | EmptyString => (0, Some (ErrSyntax s))
  | String c r =>
      let neg := Ascii.eqb c "-"%char in
      let body := if neg || Ascii.eqb c "+"%char then r else s in
      match body with
      | EmptyString => (0, Some (ErrSyntax s))
      | _ =>
          match digits body 0 with
          | None => (0, Some (ErrSyntax s))
          | Some n =>
              let v := if neg then - n else n in
              if (minInt <=? v) && (v <=? maxInt) then (v, None)
              else ((if neg then minInt else maxInt), Some (ErrRange s))
          end
      end
  end.

(** ** The index *)

Record indexEntry : Type := mkEntry { id : Z; seek : Z }.

Definition zeroEntry : indexEntry := mkEntry 0 0.

(** The global [mu], without its mutex: every access of the source sits
    between [mu.Lock()] and [mu.Unlock()], so in a sequential run each
    critical section is one step on this record. *)
Record muState : Type := mkMu {
  offsets : gmap N indexEntry;
  offsetSize : gmap Z Z
}.

Definition mu0 : muState := mkMu ∅ ∅.

(** [m[k]] on a [map[int]int]: the zero value for a missing key. *)
Definition sizeAt (m : gmap Z Z) (k : Z) : Z := default 0 (m !! k).

(** The body of one loop iteration of [loadIndex] up to the locked section:
    split, the length check, the two [Atoi] and the rejoined title. *)
Definition parseLine (text : string) : (indexEntry * string) * option error :=
  let parts := Split text colon in
  if (length parts <? 3)%nat then ((zeroEntry, EmptyString), Some (ErrParts parts))
  else
    match Atoi (nth 0 parts EmptyString) with
    | (_, Some err) => ((zeroEntry, EmptyString), Some err)
    | (seek, None) =>
        match Atoi (nth 1 parts EmptyString) with
        | (_, Some err) => ((zeroEntry, EmptyString), Some err)
        | (id, None) =>
            let title := Join (drop 2 parts) ":" in
            ((mkEntry id seek, title), None)
        end
    end.

(** ** The state monad of the program

    Every function of the source that touches [mu] is a computation on
    [muState]. *)
Definition M (A : Type) : Type := muState -> A * muState.

Definition ret {A : Type} (a : A) : M A := fun st => (a, st).

Definition bind {A B : Type} (c : M A) (k : A -> M B) : M B :=
  fun st => let (a, st') := c st in k a st'.

Definition get : M muState := fun st => (st, st).

Definition modify (f : muState -> muState) : M unit := fun st => (tt, f st).

Declare Scope go_scope.
Delimit Scope go_scope with go.
Notation "x <~ c ;; k" := (bind c (fun x => k))
  (at level 100, c at next level, right associativity) : go_scope.
Notation "c ;;; k" := (bind c (fun _ => k))
  (at level 100, right associativity) : go_scope.

Definition result {A : Type} (c : M A) (st : muState) : A := fst (c st).
Definition after {A : Type} (c : M A) (st : muState) : muState := snd (c st).

(** What [loadIndex] gets from its collaborators: the outcome of creating
    the bleve index, of opening the index file and of starting the parallel
    bzip2 reader, then the lines [scanner.Scan] delivers and the error
    [scanner.Err] reports once [Scan] has returned false.  The bleve index
    itself, which the program creates and never fills, and the progress
    lines written to the log are left out. *)
Record indexSource : Type := mkSource {
  bleve_New : option error;
  os_Open : option error;
  pbzip2_NewReader : option error;
  scanned : list string;
  scanner_Err : option error
}.

Record redirect : Type := mkRedirect { redirectTitle : string }.

Record page : Type := mkPage {
  XMLName : string * string;
  Title : string;
  NS : Z;
  ID : Z;
  Redirect : list redirect;
  RevisionID : string;
  Timestamp : string;
  Username : string;
  UserID : string;
  Model : string;
  Format : string;
  Text : string
}.

Definition zeroPage : page :=
  mkPage (EmptyString, EmptyString) EmptyString 0 0 [] EmptyString EmptyString
         EmptyString EmptyString EmptyString EmptyString EmptyString.

(** What [readArticle] gets from its collaborators.  [decoder] is the state
    of the [xml.Decoder] reading the bzip2 stream that starts at the offset
    the file was moved to.  [xmlDecode d p] is [d.Decode(&p)]: the source
    decodes every document into the same variable [p], so the call is given
    its current contents. *)
Record articles (decoder : Type) : Type := mkArticles {
  osOpen : option error;
  fSeek : Z -> option error;
  xmlNewDecoder : Z -> decoder;
  xmlDecode : decoder -> page -> (decoder * page) * option error
}.
Arguments osOpen {decoder} _.
Arguments fSeek {decoder} _ _.
Arguments xmlNewDecoder {decoder} _ _.
Arguments xmlDecode {decoder} _ _ _.

Section Program.
(** [cityhash.Hash64([]byte(s))], [strings.ToLower] and [strings.Title]. *)
Variable Hash64 : string -> N.
Variables ToLower strings_Title : string -> string.

Open Scope go_scope.

(** The locked section of [loadIndex]:
    [mu.offsets[titleHash] = entry; mu.offsetSize[entry.seek]++]. *)
Definition store (titleHash : N) (entry : indexEntry) : M unit :=
  modify (fun st =>
    mkMu (<[titleHash := entry]> (offsets st))
         (<[seek entry := int_wrap (sizeAt (offsetSize st) (seek entry) + 1)]>
            (offsetSize st))).

(** The [for scanner.Scan()] loop; the result is the error of an early
    [return], [None] when the lines are used up. *)
Fixpoint scanLoop (lines : list string) : M (option error) :=
  match lines with
  | [] => ret None
  | text :: rest =>
      match parseLine text with
      | (_, Some err) => ret (Some err)
      | ((entry, title), None) =>
          store (Hash64 title) entry ;;; scanLoop rest
      end
  end.

Definition loadIndex (src : indexSource) : M (option error) :=
  match bleve_New src with
  | Some err => ret (Some err)
  | None =>
  match os_Open src with
  | Some err => ret (Some err)
  | None =>
  match pbzip2_NewReader src with
  | Some err => ret (Some err)
  | None =>
      err <~ scanLoop (scanned src) ;;
      match err with
      | Some err => ret (Some err)
      | None => ret (scanner_Err src)
      end
  end end end.

Definition fetchArticle (name : string) : M (indexEntry * option error) :=
  st <~ get ;;
  match offsets st !! Hash64 name with
  | Some articleMeta => ret (articleMeta, None)
  | None =>
      match offsets st !! Hash64 (strings_Title (ToLower name)) with
      | Some articleMeta => ret (articleMeta, None)
      | None => ret (zeroEntry, Some (ErrStatus StatusNotFound name))
      end
  end.

(** [for hash := range mu.offsets { return hash, nil }].  Go starts a map
    range at a place of its choosing; [choice] stands for that choice. *)
Definition randomArticleHash (choice : nat) : M (N * option error) :=
  st <~ get ;;
  let keys := (map_to_list (offsets st)).*1 in
  match keys with
  | [] => ret (0%N, Some ErrNoArticles)
  | k :: _ => ret (nth (choice mod length keys) keys k, None)
  end.

Section Reader.
Context {decoder : Type}.
Variable archive : articles decoder.

(** The [for i := 0; i < maxTries; i++] loop of [readArticle], with the
    number of [Decode] calls made so far carried along.  [tries] is the
    number of rounds left, [Z.to_nat maxTries] at the start: none when
    [maxTries] is zero or negative. *)
Fixpoint decodeLoop (tries : nat) (maxTries : Z) (meta : indexEntry)
    (d : decoder) (p : page) (calls : nat) : (page * option error) * nat :=
  match tries with
  | O => ((zeroPage, Some (ErrTries maxTries)), calls)
  | S tries' =>
      match xmlDecode archive d p with
      | (_, Some err) => ((zeroPage, Some err), S calls)
      | ((d', p'), None) =>
          if ID p' =? id meta then ((p', None), S calls)
          else decodeLoop tries' maxTries meta d' p' (S calls)
      end
  end.

(** [readArticle], returning next to its result the number of [Decode]
    calls it made. *)
Definition readArticleCalls (meta : indexEntry)
    : M ((page * option error) * nat) :=
  match osOpen archive with
  | Some err => ret ((zeroPage, Some err), O)
  | None =>
      st <~ get ;;
      let maxTries := sizeAt (offsetSize st) (seek meta) in
      match fSeek archive (seek meta) with
      | Some err => ret ((zeroPage, Some err), O)
      | None =>
          ret (decodeLoop (Z.to_nat maxTries) maxTries meta
                 (xmlNewDecoder archive (seek meta)) zeroPage O)
      end
  end.

Definition readArticle (meta : indexEntry) : M (page * option error) :=
  r <~ readArticleCalls meta ;; ret (fst r).

Definition randomArticle (choice : nat) : M (page * option error) :=
  r <~ randomArticleHash choice ;;
  match r with
  | (_, Some err) => ret (zeroPage, Some err)
  | (hash, None) =>
      st <~ get ;;
      let meta := default zeroEntry (offsets st !! hash) in
      readArticle meta
  end.
End Reader.
End Program.

(** ** A concrete instance

    The theorems below hold for every hash function and every behaviour of
    the collaborators.  To run the program on concrete inputs, this instance
    supplies: a 64-bit hash (FNV-1a), [strings.ToLower] and [strings.Title]
    as they act on strings of ASCII bytes, and an archive whose blocks are
    lists of documents. *)

Definition fnv1a (s : string) : N :=
  fold_left (fun h c => (N.lxor h (N_of_ascii c) * 1099511628211) mod 2 ^ 64)%N
            (list_ascii_of_string s) 14695981039346656037%N.

Definition isUpper (c : ascii) : bool :=
  let n := N_of_ascii c in ((65 <=? n) && (n <=? 90))%N.
Definition isLower (c : ascii) : bool :=
  let n := N_of_ascii c in ((97 <=? n) && (n <=? 122))%N.
Definition isDigit (c : ascii) : bool :=
  let n := N_of_ascii c in ((48 <=? n) && (n <=? 57))%N.

Definition lowerByte (c : ascii) : ascii :=
  if isUpper c then ascii_of_N (N_of_ascii c + 32) else c.
Definition upperByte (c : ascii) : ascii :=
  if isLower c then ascii_of_N (N_of_ascii c - 32) else c.

Fixpoint asciiToLower (s : string) : string :=
  match s with
  | EmptyString => EmptyString
  | String c r => String (lowerByte c) (asciiToLower r)
  end.

(** [isSeparator] of package [strings], on an ASCII byte: letters, digits
    and the underscore are not separators, every other byte is. *)
Definition isSeparator (c : ascii) : bool :=
  negb (isDigit c || isLower c || isUpper c || Ascii.eqb c "_"%char).

Fixpoint titleFrom (prev : ascii) (s : string) : string :=
  match s with
  | EmptyString => EmptyString
  | String c r =>
      String (if isSeparator prev then upperByte c else c) (titleFrom c r)
  end.

Definition asciiTitle (s : string) : string := titleFrom " "%char s.

(** A block is the list of outcomes of the successive [Decode] calls on it;
    past its end [Decode] reports the end of the stream. *)
Definition listDecode (d : list (page + error)) (p : page)
    : (list (page + error) * page) * option error :=
  match d with
  | [] => (([], p), Some (ErrExt "EOF"))
  | inl q :: d' => ((d', q), None)
  | inr err :: d' => ((d', p), Some err)
  end.

(** A file that opens, on which a seek fails exactly at negative offsets. *)
Definition listArchive (blocks : Z -> list (page + error))
    : articles (list (page + error)) :=
  mkArticles _ None
    (fun off => if off <? 0 then Some (ErrExt "invalid argument") else None)
    blocks listDecode.

Definition fileOf (lines : list string) : indexSource :=
  mkSource None None None lines None.

Definition doc (n : Z) (title : string) : page :=
  mkPage (EmptyString, "page"%string) title 0 n [] EmptyString EmptyString
         EmptyString EmptyString EmptyString EmptyString EmptyString.

(** The title and the entry [loadIndex] takes from a line, and whether it
    takes the line at all. *)
Definition titleOf (text : string) : string := snd (fst (parseLine text)).
Definition entryOf (text : string) : indexEntry := fst (fst (parseLine text)).
Definition accepted (text : string) : Prop := snd (parseLine text) = None.

(** A field is an integer when [strconv.Atoi] reads it as one. *)
Definition isInteger (field : string) : bool :=
  match Atoi field with (_, None) => true | (_, Some _) => false end.

(** A malformed line, in the words of the design document: fewer than three
    colon-delimited parts, or an offset or id field that is not an integer. *)
Definition malformed (text : string) : Prop :=
  let parts := Split text colon in
  (length parts < 3)%nat
  \/ isInteger (nth 0 parts EmptyString) = false
  \/ isInteger (nth 1 parts EmptyString) = false.

(** The text of an index line with the given three fields. *)
Definition lineOf (offset ident title : string) : string :=
  String.append offset (String colon (String.append ident (String colon title))).

(** The same collaborators delivering other lines. *)
Definition withLines (src : indexSource) (lines : list string) : indexSource :=
  mkSource (bleve_New src) (os_Open src) (pbzip2_NewReader src) lines
           (scanner_Err src).

(** The number of the given lines whose offset field is [o]. *)
Definition recordsAt (o : Z) (lines : list string) : nat :=
  length (filter (fun text => seek (entryOf text) = o) lines).

(** The number of entries of [mu.offsets] whose block offset is [o]. *)
Definition entriesAt (o : Z) (m : gmap N indexEntry) : nat :=
  size (filter (fun kv : N * indexEntry => seek (snd kv) = o) m).

(** The outcome of [n] successive [Decode] calls into the same variable:
    the documents decoded, when all [n] calls succeed. *)
Fixpoint decodeN {decoder : Type} (archive : articles decoder) (n : nat)
    (d : decoder) (p : page) : option (list page) :=
  match n with
  | O => Some []
  | S n' =>
      match xmlDecode archive d p with
      | (_, Some _) => None
      | ((d', p'), None) =>
          match decodeN archive n' d' p' with
          | Some ps => Some (p' :: ps)
          | None => None
          end
      end
  end.

(** The state of the decoder and of the variable [p] after [n] successive
    [Decode] calls that all succeed. *)
Fixpoint decodeAfter {decoder : Type} (archive : articles decoder) (n : nat)
    (d : decoder) (p : page) : option (decoder * page) :=
  match n with
  | O => Some (d, p)
  | S n' =>
      match xmlDecode archive d p with
      | (_, Some _) => None
      | ((d', p'), None) => decodeAfter archive n' d' p'
      end
  end.

(** The entry of the last of the given lines whose title has hash [h]. *)
Fixpoint lastEntry (Hash64 : string -> N) (h : N) (lines : list string)
    : option indexEntry :=
  match lines with
  | [] => None
  | text :: rest =>
      match lastEntry Hash64 h rest with
      | Some e => Some e
      | None =>
          if decide (Hash64 (titleOf text) = h) then Some (entryOf text)
          else None
      end
  end.

(** The same collaborators with another outcome of [scanner.Err]. *)
Definition withScannerErr (src : indexSource) (err : option error)
    : indexSource :=
  mkSource (bleve_New src) (os_Open src) (pbzip2_NewReader src) (scanned src)
           err.

(** ** The [/search] handler

    The function [run] registers for [/search].  What it does to its
    [http.ResponseWriter] is the list of the calls it makes on it, in
    order.  [q] is [request.URL.Query().Get("q")]; [json_Marshal] is
    [json.Marshal] on a [page]. *)
Inductive writerCall : Type :=
| HeaderSet (key value : string)
| Write (body : string).

Section Server.
Variable Hash64 : string -> N.
Variables ToLower strings_Title : string -> string.
Context {decoder : Type}.
Variable archive : articles decoder.
Variable json_Marshal : page -> string * option error.

Open Scope go_scope.

Definition searchHandler (q : string) : M (list writerCall) :=
  r <~ fetchArticle Hash64 ToLower strings_Title q ;;
  match r with
  | (_, Some _) => ret []
  | (article, None) =>
      r' <~ readArticle archive article ;;
      match r' with
      | (_, Some _) => ret []
      | (pg, None) =>
          match json_Marshal pg with
          | (_, Some _) => ret []
          | (marshal, None) =>
              ret [HeaderSet "Access-Control-Allow-Origin" "*"; Write marshal]
          end
      end
  end.
End Server.

(** A marshaller for running the handler: the title of the page. *)
Definition titleMarshal (pg : page) : string * option error := (Title pg, None).

(** ** Strings *)

Lemma Split_not_nil s sep : Split s sep <> [].
Proof.
  destruct s as [|c r]; simpl; [discriminate|].
  destruct (Ascii.eqb c sep); [discriminate|].
  destruct (Split r sep); discriminate.
Qed.

(** A separator-free prefix followed by a separator is the first part. *)
Lemma Split_prefix a sep r :
  (forall c, In c (list_ascii_of_string a) -> c <> sep) ->
  Split (String.append a (String sep r)) sep = a :: Split r sep.
Proof.
  induction a as [|c a IH]; simpl; intros Hfree.
  - by rewrite Ascii.eqb_refl.
  - destruct (Ascii.eqb_spec c sep) as [->|_].
    + exfalso. apply (Hfree sep); auto.
    + rewrite IH; [done|]. intros c' Hc'. apply Hfree. auto.
Qed.

Lemma Join_cons p q ps sep :
  Join (p :: q :: ps) sep = String.append p (String.append sep (Join (q :: ps) sep)).
Proof. reflexivity. Qed.

(** Joining what was split gives the text back. *)
Lemma Join_Split s : Join (Split s colon) ":" = s.
Proof.
  induction s as [|c r IH]; [done|]. simpl Split.
  destruct (Ascii.eqb_spec c colon) as [->|Hc].
  - pose proof (Split_not_nil r colon) as Hne.
    destruct (Split r colon) as [|q qs]; [done|].
    rewrite Join_cons, IH. reflexivity.
  - pose proof (Split_not_nil r colon) as Hne.
    destruct (Split r colon) as [|q qs]; [done|].
    destruct qs as [|q' qs].
    + simpl in *. by rewrite IH.
    + rewrite Join_cons, <- IH, Join_cons. reflexivity.
Qed.

Lemma digit_not_colon c d : digit c = Some d -> c <> colon.
Proof. intros Hd ->. discriminate Hd. Qed.

Lemma digits_no_colon s : forall acc n,
  digits s acc = Some n -> forall c, In c (list_ascii_of_string s) -> c <> colon.
Proof.
  induction s as [|c0 r IH]; simpl; intros acc n Hs c Hin; [done|].
  destruct (digit c0) as [d|] eqn:Hd; [|done].
  destruct Hin as [<-|Hin]; [by eapply digit_not_colon|by eapply IH].
Qed.

(** A field [Atoi] accepts has no colon in it. *)
Lemma Atoi_no_colon s v :
  Atoi s = (v, None) -> forall c, In c (list_ascii_of_string s) -> c <> colon.
Proof.
  unfold Atoi. destruct s as [|c0 r]; [done|].
  set (neg := Ascii.eqb c0 "-"%char). set (pos := Ascii.eqb c0 "+"%char).
  intros H c Hin.
  destruct (neg || pos) eqn:Hsign.
  - destruct r as [|c1 r']; [done|].
    destruct (digits (String c1 r') 0) as [n|] eqn:Hd.
    2: { discriminate H. }
    destruct Hin as [<-|Hin].
    + intros ->. by vm_compute in Hsign.
    + by eapply digits_no_colon.
  - destruct (digits (String c0 r) 0) as [n|] eqn:Hd.
    2: { discriminate H. }
    by eapply digits_no_colon.
Qed.

(** [Atoi] on the shapes an index field can take. *)
Example Atoi_plain : Atoi "1024" = (1024, None).
Proof. reflexivity. Qed.

Example Atoi_signs : Atoi "-7" = (-7, None) /\ Atoi "+7" = (7, None).
Proof. split; reflexivity. Qed.

Example Atoi_rejects :
  Atoi "" = (0, Some (ErrSyntax ""))
  /\ Atoi "-" = (0, Some (ErrSyntax "-"))
  /\ Atoi "4_2" = (0, Some (ErrSyntax "4_2"))
  /\ Atoi " 42" = (0, Some (ErrSyntax " 42"))
  /\ Atoi "0x1f" = (0, Some (ErrSyntax "0x1f")).
Proof. repeat split; reflexivity. Qed.

Example Atoi_range :
  Atoi "9223372036854775807" = (maxInt, None)
  /\ Atoi "9223372036854775808" = (maxInt, Some (ErrRange "9223372036854775808"))
  /\ Atoi "-9223372036854775808" = (minInt, None)
  /\ Atoi "-9223372036854775809" = (minInt, Some (ErrRange "-9223372036854775809")).
Proof. repeat split; reflexivity. Qed.

(** ** One index line *)

Lemma Split_lineOf a b t oa ob :
  Atoi a = (oa, None) -> Atoi b = (ob, None) ->
  Split (lineOf a b t) colon = a :: b :: Split t colon.
Proof.
  intros Ha Hb. unfold lineOf.
  rewrite Split_prefix by (by eapply Atoi_no_colon).
  rewrite Split_prefix by (by eapply Atoi_no_colon).
  reflexivity.
Qed.

(** A line [offset:id:title] whose first two fields are integers is taken,
    with the whole remainder as its title. *)
Lemma parseLine_lineOf a b t off i :
  Atoi a = (off, None) -> Atoi b = (i, None) ->
  parseLine (lineOf a b t) = ((mkEntry i off, t), None).
Proof.
  intros Ha Hb. unfold parseLine.
  rewrite (Split_lineOf a b t off i Ha Hb).
  pose proof (Split_not_nil t colon) as Hne.
  destruct (Split t colon) as [|q qs] eqn:Hq; [done|].
  cbn [length Nat.ltb Nat.leb nth drop]. rewrite Ha, Hb.
  by rewrite <- Hq, Join_Split.
Qed.

(** Conversely a line that is taken has that form. *)
Lemma parseLine_accepted text e t :
  parseLine text = ((e, t), None) ->
  exists a b, text = lineOf a b t
              /\ Atoi a = (seek e, None) /\ Atoi b = (id e, None).
Proof.
  unfold parseLine. intros H.
  pose proof (Join_Split text) as Hjoin.
  destruct (Split text colon) as [|a [|b [|c rest]]]; try discriminate H.
  cbn [length Nat.ltb Nat.leb nth drop] in H.
  destruct (Atoi a) as [off [err|]] eqn:Ha; [discriminate H|].
  destruct (Atoi b) as [i [err|]] eqn:Hb; [discriminate H|].
  injection H as <- <-. exists a, b. split; [|done].
  rewrite <- Hjoin. reflexivity.
Qed.

Lemma accepted_parse text :
  accepted text -> parseLine text = ((entryOf text, titleOf text), None).
Proof.
  unfold accepted, entryOf, titleOf. by destruct (parseLine text) as [[e t] err]; simpl; intros ->.
Qed.

(** The loader rejects exactly the malformed lines. *)
Lemma malformed_rejected text : malformed text <-> ~ accepted text.
Proof.
  unfold malformed, accepted, parseLine, isInteger.
  destruct (Split text colon) as [|a [|b [|c rest]]];
    cbn [length Nat.ltb Nat.leb nth drop];
    try (split; [discriminate | intros _; left; lia]).
  destruct (Atoi a) as [off [err|]]; destruct (Atoi b) as [i [err'|]]; simpl;
    split; try discriminate; try (intros _; tauto);
    try (intros [H|[H|H]]; [lia|discriminate H|discriminate H]); try (intros H; by destruct H).
Qed.

Lemma accepted_dec text : {accepted text} + {~ accepted text}.
Proof.
  unfold accepted. destruct (snd (parseLine text)); [right; discriminate|by left].
Defined.

(** ** The loader *)

Section Loader.
Variable Hash64 : string -> N.

Lemma scanLoop_cons_accepted text rest st :
  accepted text ->
  scanLoop Hash64 (text :: rest) st
  = scanLoop Hash64 rest (after (store (Hash64 (titleOf text)) (entryOf text)) st).
Proof.
  intros Hacc. simpl. rewrite (accepted_parse text Hacc). reflexivity.
Qed.

Lemma after_scanLoop_cons text rest st :
  accepted text ->
  after (scanLoop Hash64 (text :: rest)) st
  = after (scanLoop Hash64 rest)
          (after (store (Hash64 (titleOf text)) (entryOf text)) st).
Proof. intros Hacc. unfold after at 1. by rewrite scanLoop_cons_accepted. Qed.

Lemma result_scanLoop_cons text rest st :
  accepted text ->
  result (scanLoop Hash64 (text :: rest)) st
  = result (scanLoop Hash64 rest)
           (after (store (Hash64 (titleOf text)) (entryOf text)) st).
Proof. intros Hacc. unfold result at 1. by rewrite scanLoop_cons_accepted. Qed.

(** A line that is not taken ends the loop: the state is left as it is and
    the lines after it are not looked at. *)
Lemma scanLoop_cons_rejected text rest st :
  ~ accepted text ->
  scanLoop Hash64 (text :: rest) st = (snd (parseLine text), st).
Proof.
  unfold accepted. intros Hrej. simpl.
  destruct (parseLine text) as [[e t] [err|]]; [reflexivity|done].
Qed.

Lemma scanLoop_app pre post st :
  Forall accepted pre ->
  scanLoop Hash64 (pre ++ post) st
  = scanLoop Hash64 post (after (scanLoop Hash64 pre) st).
Proof.
  intros Hpre. revert st.
  induction Hpre as [|text pre Hacc _ IH]; intros st; [reflexivity|].
  rewrite <- app_comm_cons, scanLoop_cons_accepted, after_scanLoop_cons by done.
  apply IH.
Qed.

Lemma scanLoop_accepted lines st :
  Forall accepted lines -> result (scanLoop Hash64 lines) st = None.
Proof.
  intros Hall. revert st.
  induction Hall as [|text lines Hacc _ IH]; intros st; [reflexivity|].
  rewrite result_scanLoop_cons by done. apply IH.
Qed.

Lemma scanLoop_ok_accepted lines st :
  result (scanLoop Hash64 lines) st = None -> Forall accepted lines.
Proof.
  revert st. induction lines as [|text lines IH]; intros st H; [constructor|].
  destruct (accepted_dec text) as [Hacc|Hrej].
  - constructor; [done|].
    rewrite result_scanLoop_cons in H by done. by eapply IH.
  - unfold result in H. rewrite scanLoop_cons_rejected in H by done.
    simpl in H. by destruct Hrej.
Qed.

Lemma scanLoop_snoc pre text st :
  Forall accepted pre -> accepted text ->
  after (scanLoop Hash64 (pre ++ [text])) st
  = after (store (Hash64 (titleOf text)) (entryOf text))
          (after (scanLoop Hash64 pre) st).
Proof.
  intros Hpre Hacc. unfold after at 1.
  rewrite scanLoop_app by done. fold (after (scanLoop Hash64 [text]) (after (scanLoop Hash64 pre) st)).
  by rewrite after_scanLoop_cons.
Qed.

Lemma offsets_store h e st k :
  offsets (after (store h e) st) !! k
  = if decide (h = k) then Some e else offsets st !! k.
Proof. unfold after, store, modify; simpl. apply lookup_insert. Qed.

(** Lines whose titles hash elsewhere leave the entry under [h] alone. *)
Lemma offsets_scan_other lines st h :
  Forall accepted lines ->
  Forall (fun text => Hash64 (titleOf text) <> h) lines ->
  offsets (after (scanLoop Hash64 lines) st) !! h = offsets st !! h.
Proof.
  intros Hacc. revert st.
  induction Hacc as [|text lines Ht _ IH]; intros st Hne; [reflexivity|].
  apply Forall_cons_iff in Hne as [Hne1 Hne].
  rewrite after_scanLoop_cons, IH by done. rewrite offsets_store. by case_decide.
Qed.

(** Last write wins: under a hash the map holds the entry of the last line
    whose title has that hash. *)
Lemma offsets_scan_last pre text post st :
  Forall accepted pre -> accepted text -> Forall accepted post ->
  Forall (fun text' => Hash64 (titleOf text') <> Hash64 (titleOf text)) post ->
  offsets (after (scanLoop Hash64 (pre ++ text :: post)) st) !! Hash64 (titleOf text)
  = Some (entryOf text).
Proof.
  intros Hpre Hacc Hpost Hne. unfold after at 1.
  rewrite scanLoop_app by done.
  fold (after (scanLoop Hash64 (text :: post)) (after (scanLoop Hash64 pre) st)).
  rewrite after_scanLoop_cons, offsets_scan_other by done. rewrite offsets_store. by case_decide.
Qed.

(** [loadIndex] once its three collaborators have started. *)
Lemma loadIndex_started src st :
  bleve_New src = None -> os_Open src = None -> pbzip2_NewReader src = None ->
  loadIndex Hash64 src st
  = (match result (scanLoop Hash64 (scanned src)) st with
     | Some err => Some err
     | None => scanner_Err src
     end, after (scanLoop Hash64 (scanned src)) st).
Proof.
  intros H1 H2 H3. unfold loadIndex, result, after, bind. rewrite H1, H2, H3.
  destruct (scanLoop Hash64 (scanned src) st) as [[err|] st']; reflexivity.
Qed.

(** A load that reports no error has started, has taken every line and
    has met no scanner error. *)
Lemma loadIndex_ok src st :
  result (loadIndex Hash64 src) st = None ->
  Forall accepted (scanned src)
  /\ after (loadIndex Hash64 src) st = after (scanLoop Hash64 (scanned src)) st.
Proof.
  unfold result, after, loadIndex, bind, ret.
  destruct (bleve_New src); [discriminate|].
  destruct (os_Open src); [discriminate|].
  destruct (pbzip2_NewReader src); [discriminate|].
  destruct (scanLoop Hash64 (scanned src) st) as [[err|] st'] eqn:Hscan;
    [discriminate|].
  intros _. split; [|reflexivity].
  apply (scanLoop_ok_accepted _ st). unfold result. by rewrite Hscan.
Qed.
End Loader.

(** ** Counting *)

Lemma int_wrap_fits z : minInt <= z <= maxInt -> int_wrap z = z.
Proof.
  unfold minInt, maxInt, int_wrap. intros Hz.
  rewrite Z.mod_small; lia.
Qed.

Lemma int_wrap_add a b : int_wrap (int_wrap a + b) = int_wrap (a + b).
Proof.
  unfold int_wrap. f_equal.
  replace ((a + 2 ^ 63) mod 2 ^ 64 - 2 ^ 63 + b + 2 ^ 63)
    with ((a + 2 ^ 63) mod 2 ^ 64 + b) by lia.
  rewrite Zplus_mod_idemp_l. f_equal. lia.
Qed.

Lemma recordsAt_snoc o pre text :
  recordsAt o (pre ++ [text])
  = (recordsAt o pre + (if decide (seek (entryOf text) = o) then 1 else 0))%nat.
Proof.
  unfold recordsAt. rewrite list.filter_app, length_app. f_equal.
  rewrite filter_cons. case_decide; reflexivity.
Qed.

Lemma recordsAt_le o lines : (recordsAt o lines <= length lines)%nat.
Proof. apply length_filter. Qed.

Lemma sizeAt_store h e st o :
  sizeAt (offsetSize (after (store h e) st)) o
  = if decide (seek e = o) then int_wrap (sizeAt (offsetSize st) o + 1)
    else sizeAt (offsetSize st) o.
Proof.
  unfold after, store, modify, sizeAt; simpl. rewrite lookup_insert.
  case_decide; [by subst|done].
Qed.

Lemma entriesAt_store_fresh h e st o :
  offsets st !! h = None ->
  entriesAt o (offsets (after (store h e) st))
  = (entriesAt o (offsets st) + (if decide (seek e = o) then 1 else 0))%nat.
Proof.
  intros Hfresh. unfold entriesAt, after, store, modify; simpl.
  rewrite map_filter_insert. simpl. case_decide.
  - rewrite map_size_insert_None; [lia|]. by apply map_lookup_filter_None_2; left.
  - rewrite delete_id by done. lia.
Qed.

Lemma entriesAt_store_le h e st o :
  (entriesAt o (offsets (after (store h e) st))
   <= entriesAt o (offsets st) + (if decide (seek e = o) then 1 else 0))%nat.
Proof.
  unfold entriesAt, after, store, modify; simpl.
  rewrite map_filter_insert. simpl. case_decide.
  - rewrite map_size_insert. destruct (filter _ (offsets st) !! h); simpl; lia.
  - etrans; [apply map_subseteq_size, map_filter_subseteq_mono, delete_subseteq|lia].
Qed.

Section Counting.
Variable Hash64 : string -> N.

(** The counter of an offset is the number of lines taken with that
    offset, as a Go [int]. *)
Lemma sizeAt_scan lines o :
  Forall accepted lines ->
  sizeAt (offsetSize (after (scanLoop Hash64 lines) mu0)) o
  = int_wrap (Z.of_nat (recordsAt o lines)).
Proof.
  induction lines as [|text pre IH] using rev_ind; intros Hacc; [reflexivity|].
  apply Forall_app in Hacc as [Hpre Htext].
  apply Forall_cons_iff in Htext as [Htext _].
  rewrite scanLoop_snoc, sizeAt_store, recordsAt_snoc, IH by done.
  case_decide.
  - rewrite int_wrap_add. f_equal. lia.
  - f_equal. lia.
Qed.

Lemma sizeAt_scan_fits lines o :
  Forall accepted lines -> Z.of_nat (length lines) <= maxInt ->
  sizeAt (offsetSize (after (scanLoop Hash64 lines) mu0)) o
  = Z.of_nat (recordsAt o lines).
Proof.
  intros Hacc Hlen. rewrite sizeAt_scan by done. apply int_wrap_fits.
  pose proof (recordsAt_le o lines). unfold minInt. lia.
Qed.

Lemma entriesAt_scan_le lines o :
  Forall accepted lines ->
  (entriesAt o (offsets (after (scanLoop Hash64 lines) mu0))
   <= recordsAt o lines)%nat.
Proof.
  induction lines as [|text pre IH] using rev_ind; intros Hacc.
  - unfold entriesAt. simpl. by rewrite map_filter_empty, map_size_empty.
  - apply Forall_app in Hacc as [Hpre Htext].
    apply Forall_cons_iff in Htext as [Htext _].
    rewrite scanLoop_snoc, recordsAt_snoc by done.
    etrans; [apply entriesAt_store_le|]. specialize (IH Hpre). lia.
Qed.

(** When no two lines hash alike, no entry is overwritten and the map
    has one entry per line. *)
Lemma entriesAt_scan_distinct lines o :
  Forall accepted lines ->
  NoDup (map (fun text => Hash64 (titleOf text)) lines) ->
  entriesAt o (offsets (after (scanLoop Hash64 lines) mu0))
  = recordsAt o lines.
Proof.
  induction lines as [|text pre IH] using rev_ind; intros Hacc Hnd.
  - unfold entriesAt. simpl. by rewrite map_filter_empty, map_size_empty.
  - apply Forall_app in Hacc as [Hpre Htext].
    apply Forall_cons_iff in Htext as [Htext _].
    rewrite map_app in Hnd. apply list.NoDup_app in Hnd as (Hnd & Hfresh & _).
    rewrite scanLoop_snoc, recordsAt_snoc by done.
    rewrite entriesAt_store_fresh, IH; [done..|].
    rewrite offsets_scan_other; [done..|].
    apply Forall_forall. intros text' Hin Heq.
    apply (Hfresh (Hash64 (titleOf text'))).
    + apply list_elem_of_In, in_map_iff. by exists text'.
    + rewrite Heq. simpl. left.
Qed.
(** Every entry of the index has its offset counted: the two maps are
    written together. *)
Lemma indexed_offset_counted lines h e :
  Forall accepted lines ->
  offsets (after (scanLoop Hash64 lines) mu0) !! h = Some e ->
  is_Some (offsetSize (after (scanLoop Hash64 lines) mu0) !! seek e).
Proof.
  induction lines as [|text pre IH] using rev_ind; intros Hacc.
  - simpl. by rewrite lookup_empty.
  - apply Forall_app in Hacc as [Hpre Htext].
    apply Forall_cons_iff in Htext as [Htext _].
    rewrite scanLoop_snoc, offsets_store by done.
    unfold after at 2, store, modify; simpl. intros Hlook.
    destruct (decide (seek (entryOf text) = seek e)) as [->|Hne].
    + rewrite lookup_insert_eq. by eexists.
    + rewrite lookup_insert_ne by done. case_decide.
      * injection Hlook as <-. done.
      * by apply IH.
Qed.
End Counting.


(** ** Properties of the loader *)



(** C9: when two lines of a load have titles with the same hash (the same
    title twice included), the load reports no error; once the later line
    has been read, the map holds the later line's entry under that hash in
    place of the earlier one, and it still does at the end of the load
    unless a line further on hashes alike. *)
Theorem later_line_wins (Hash64 : string -> N) (src : indexSource)
    (st : muState) (l1 l2 l3 : list string) (a b : string) :
  bleve_New src = None -> os_Open src = None -> pbzip2_NewReader src = None ->
  scanner_Err src = None ->
  scanned src = l1 ++ a :: l2 ++ b :: l3 ->
  Forall accepted (scanned src) ->
  Hash64 (titleOf a) = Hash64 (titleOf b) ->
  result (loadIndex Hash64 src) st = None
  /\ offsets (after (scanLoop Hash64 (l1 ++ a :: l2 ++ [b])) st) !! Hash64 (titleOf a)
     = Some (entryOf b)
  /\ (Forall (fun text => Hash64 (titleOf text) <> Hash64 (titleOf b)) l3 ->
      offsets (after (loadIndex Hash64 src) st) !! Hash64 (titleOf a)
      = Some (entryOf b)).
Proof.
  intros H1 H2 H3 H4 Hlines Hacc Hhash.
  rewrite Hlines in Hacc.
  assert (Hacc' : Forall accepted ((l1 ++ a :: l2) ++ b :: l3))
    by (by rewrite <- app_assoc).
  apply Forall_app in Hacc' as [Hpre Hpost].
  apply Forall_cons_iff in Hpost as [Hb Hl3].
  split; [|split].
  - unfold result. rewrite loadIndex_started by done. simpl.
    rewrite Hlines, scanLoop_accepted by done. done.
  - rewrite Hhash.
    replace (l1 ++ a :: l2 ++ [b]) with ((l1 ++ a :: l2) ++ b :: [])
      by (by rewrite <- app_assoc).
    by apply offsets_scan_last.
  - intros Hne. unfold after. rewrite loadIndex_started by done. simpl.
    rewrite Hlines, Hhash.
    replace (l1 ++ a :: l2 ++ b :: l3) with ((l1 ++ a :: l2) ++ b :: l3)
      by (by rewrite <- app_assoc).
    by apply offsets_scan_last.
Qed.

Lemma later_line_wins_witness :
  result (loadIndex fnv1a (fileOf ["5:1:Ada"; "6:2:Bob"; "7:3:Ada"; "8:4:Cy"]%string)) mu0
  = None
  /\ offsets (after (scanLoop fnv1a ["5:1:Ada"; "6:2:Bob"; "7:3:Ada"]%string) mu0)
       !! fnv1a "Ada" = Some (mkEntry 3 7)
  /\ offsets (after (loadIndex fnv1a
                 (fileOf ["5:1:Ada"; "6:2:Bob"; "7:3:Ada"; "8:4:Cy"]%string)) mu0)
       !! fnv1a "Ada" = Some (mkEntry 3 7).
Proof.
  destruct (later_line_wins fnv1a
              (fileOf ["5:1:Ada"; "6:2:Bob"; "7:3:Ada"; "8:4:Cy"]%string) mu0
              [] ["6:2:Bob"%string] ["8:4:Cy"%string] "5:1:Ada" "7:3:Ada")
    as (Hok & Hthen & Hend); try reflexivity.
  - repeat constructor.
  - split; [exact Hok|split; [exact Hthen|]].
    apply Hend. repeat constructor. vm_compute. discriminate.
Defined.

(** ** Lookups after a load *)

Section Lookup.
Variable Hash64 : string -> N.
Variables ToLower strings_Title : string -> string.

Lemma fetchArticle_exact name e st :
  offsets st !! Hash64 name = Some e ->
  fetchArticle Hash64 ToLower strings_Title name st = ((e, None), st).
Proof. intros H. unfold fetchArticle, bind, get, ret. by rewrite H. Qed.

Lemma fetchArticle_normalized name e st :
  offsets st !! Hash64 name = None ->
  offsets st !! Hash64 (strings_Title (ToLower name)) = Some e ->
  fetchArticle Hash64 ToLower strings_Title name st = ((e, None), st).
Proof. intros H1 H2. unfold fetchArticle, bind, get, ret. by rewrite H1, H2. Qed.

Lemma fetchArticle_missing name st :
  offsets st !! Hash64 name = None ->
  offsets st !! Hash64 (strings_Title (ToLower name)) = None ->
  fetchArticle Hash64 ToLower strings_Title name st
  = ((zeroEntry, Some (ErrStatus StatusNotFound name)), st).
Proof. intros H1 H2. unfold fetchArticle, bind, get, ret. by rewrite H1, H2. Qed.

(** The entry a successful load leaves under the hash of a line's title,
    when no other line hashes alike. *)
Lemma loaded_entry src st n text :
  result (loadIndex Hash64 src) st = None ->
  scanned src !! n = Some text ->
  (forall m text', m <> n -> scanned src !! m = Some text' ->
                   Hash64 (titleOf text') <> Hash64 (titleOf text)) ->
  offsets (after (loadIndex Hash64 src) st) !! Hash64 (titleOf text)
  = Some (entryOf text).
Proof.
  intros Hok Hn Hothers.
  destruct (loadIndex_ok Hash64 src st Hok) as [Hacc ->].
  pose proof (take_drop_middle _ _ _ Hn) as Hsplit.
  rewrite <- Hsplit in Hacc |- *.
  apply Forall_app in Hacc as [Hpre Hpost].
  apply Forall_cons_iff in Hpost as [Htext Hpost].
  apply offsets_scan_last; [done..|].
  apply Forall_forall. intros text' Hin.
  apply list_elem_of_In, list_elem_of_lookup in Hin as [j Hj].
  rewrite lookup_drop in Hj. apply (Hothers (S n + j)%nat); [lia|done].
Qed.
End Lookup.

(** C1, as amended: after a load that reports no error (so that every line
    was a valid [offset:id:title]), [fetchArticle] applied to the title of
    any line returns the entry with that line's id and offset, provided no
    other line's title has the same hash; and so does [fetchArticle] applied
    to a name whose own hash is not in the index and whose normalized form
    is that title. *)
Theorem fetch_after_load (Hash64 : string -> N)
    (ToLower strings_Title : string -> string)
    (src : indexSource) (st : muState) (n : nat) (a b t : string) (off i : Z) :
  result (loadIndex Hash64 src) st = None ->
  scanned src !! n = Some (lineOf a b t) ->
  Atoi a = (off, None) -> Atoi b = (i, None) ->
  (forall m text, m <> n -> scanned src !! m = Some text ->
                  Hash64 (titleOf text) <> Hash64 t) ->
  result (fetchArticle Hash64 ToLower strings_Title t)
         (after (loadIndex Hash64 src) st) = (mkEntry i off, None)
  /\ forall name,
      offsets (after (loadIndex Hash64 src) st) !! Hash64 name = None ->
      strings_Title (ToLower name) = t ->
      result (fetchArticle Hash64 ToLower strings_Title name)
             (after (loadIndex Hash64 src) st) = (mkEntry i off, None).
Proof.
  intros Hok Hn Ha Hb Hothers.
  pose proof (parseLine_lineOf a b t off i Ha Hb) as Hparse.
  assert (Ht : titleOf (lineOf a b t) = t) by (unfold titleOf; by rewrite Hparse).
  assert (He : entryOf (lineOf a b t) = mkEntry i off)
    by (unfold entryOf; by rewrite Hparse).
  pose proof (loaded_entry Hash64 src st n (lineOf a b t) Hok Hn) as Hentry.
  rewrite Ht, He in Hentry. specialize (Hentry Hothers).
  split.
  - unfold result. by rewrite (fetchArticle_exact _ _ _ _ _ _ Hentry).
  - intros name Hmiss Hnorm. unfold result.
    rewrite (fetchArticle_normalized _ _ _ name (mkEntry i off)); [done..|].
    by rewrite Hnorm.
Qed.

Lemma fetch_after_load_witness :
  result (fetchArticle fnv1a asciiToLower asciiTitle "Test Article")
         (after (loadIndex fnv1a
                   (fileOf ["1024:42:Test Article"; "1024:43:Other Page"]%string)) mu0)
  = (mkEntry 42 1024, None)
  /\ result (fetchArticle fnv1a asciiToLower asciiTitle "test ARTICLE")
            (after (loadIndex fnv1a
                      (fileOf ["1024:42:Test Article"; "1024:43:Other Page"]%string)) mu0)
     = (mkEntry 42 1024, None).
Proof.
  destruct (fetch_after_load fnv1a asciiToLower asciiTitle
              (fileOf ["1024:42:Test Article"; "1024:43:Other Page"]%string) mu0
              0 "1024" "42" "Test Article" 1024 42) as [Hexact Hnorm];
    try reflexivity.
  - intros [|[|m]] text Hm Hlook; [done| |discriminate Hlook].
    injection Hlook as <-. vm_compute. discriminate.
  - split; [exact Hexact|]. apply Hnorm; reflexivity.
Defined.

(** C1, as stated, fails: the index holds the one line [0:1:foo]; the
    normalized form of its title is [Foo], and [fetchArticle "Foo"] finds
    nothing, since the normalized form is only ever computed from the name
    asked for, never from the titles stored. *)
Lemma normalized_title_misses :
  result (loadIndex fnv1a (fileOf ["0:1:foo"%string])) mu0 = None
  /\ parseLine "0:1:foo" = ((mkEntry 1 0, "foo"%string), None)
  /\ asciiTitle (asciiToLower "foo") = "Foo"%string
  /\ result (fetchArticle fnv1a asciiToLower asciiTitle "foo")
            (after (loadIndex fnv1a (fileOf ["0:1:foo"%string])) mu0)
     = (mkEntry 1 0, None)
  /\ result (fetchArticle fnv1a asciiToLower asciiTitle
               (asciiTitle (asciiToLower "foo")))
            (after (loadIndex fnv1a (fileOf ["0:1:foo"%string])) mu0)
     = (zeroEntry, Some (ErrStatus StatusNotFound "Foo"))
  /\ result (fetchArticle fnv1a asciiToLower asciiTitle
               (asciiTitle (asciiToLower "foo")))
            (after (loadIndex fnv1a (fileOf ["0:1:foo"%string])) mu0)
     <> (mkEntry 1 0, None).
Proof. vm_compute. repeat split; discriminate. Qed.

(** C2, as amended: after the loader has read any number of lines (fewer
    than 2^63, so that the [int] counter has not wrapped), the counter of
    every offset [o] is the number of lines read with that offset; it is
    never below the number of entries of [mu.offsets] whose offset is [o],
    and equals it when no two of the lines read have titles with the same
    hash; reading one more line never lowers the counter. *)
Theorem counter_counts_records (Hash64 : string -> N) (pre : list string)
    (o : Z) :
  Forall accepted pre ->
  Z.of_nat (length pre) < maxInt ->
  sizeAt (offsetSize (after (scanLoop Hash64 pre) mu0)) o
  = Z.of_nat (recordsAt o pre)
  /\ Z.of_nat (entriesAt o (offsets (after (scanLoop Hash64 pre) mu0)))
     <= sizeAt (offsetSize (after (scanLoop Hash64 pre) mu0)) o
  /\ (NoDup (map (fun text => Hash64 (titleOf text)) pre) ->
      sizeAt (offsetSize (after (scanLoop Hash64 pre) mu0)) o
      = Z.of_nat (entriesAt o (offsets (after (scanLoop Hash64 pre) mu0))))
  /\ (forall text, accepted text ->
      sizeAt (offsetSize (after (scanLoop Hash64 pre) mu0)) o
      <= sizeAt (offsetSize (after (scanLoop Hash64 (pre ++ [text])) mu0)) o).
Proof.
  intros Hacc Hlen.
  assert (Hsize : sizeAt (offsetSize (after (scanLoop Hash64 pre) mu0)) o
                  = Z.of_nat (recordsAt o pre))
    by (apply sizeAt_scan_fits; [done|lia]).
  split; [done|split; [|split]].
  - rewrite Hsize. pose proof (entriesAt_scan_le Hash64 pre o Hacc). lia.
  - intros Hnd. rewrite Hsize. by rewrite entriesAt_scan_distinct.
  - intros text Htext. rewrite Hsize.
    rewrite sizeAt_scan_fits.
    + rewrite recordsAt_snoc. lia.
    + apply Forall_app. split; [done|by constructor].
    + rewrite length_app. simpl. lia.
Qed.

Lemma counter_counts_records_witness :
  sizeAt (offsetSize (after (scanLoop fnv1a
            ["1024:42:Test Article"; "1024:43:Other Page"]%string) mu0)) 1024 = 2
  /\ entriesAt 1024 (offsets (after (scanLoop fnv1a
            ["1024:42:Test Article"; "1024:43:Other Page"]%string) mu0)) = 2%nat
  /\ sizeAt (offsetSize (after (scanLoop fnv1a
            ["1024:42:Test Article"; "1024:43:Other Page"]%string) mu0)) 1024
     <= sizeAt (offsetSize (after (scanLoop fnv1a
            ["1024:42:Test Article"; "1024:43:Other Page"; "1024:44:Third"]%string)
            mu0)) 1024.
Proof.
  destruct (counter_counts_records fnv1a
              ["1024:42:Test Article"; "1024:43:Other Page"]%string 1024)
    as (Hsize & _ & Hdistinct & Hmono).
  - repeat constructor.
  - vm_compute. reflexivity.
  - split; [exact Hsize|split].
    + apply Nat2Z.inj. rewrite <- Hdistinct; [exact Hsize|].
      vm_compute. repeat constructor; rewrite ?list_elem_of_In; simpl; intuition discriminate.
    + apply (Hmono "1024:44:Third"%string). reflexivity.
Defined.

(** C2, as stated, fails: two lines with the same title and the same offset
    raise the counter of that offset to 2, while the second line's entry
    replaces the first one's in [mu.offsets], which then holds one entry
    with that offset. *)
Lemma counter_exceeds_entries :
  result (scanLoop fnv1a ["5:1:Ada"; "5:2:Ada"]%string) mu0 = None
  /\ sizeAt (offsetSize (after (scanLoop fnv1a ["5:1:Ada"; "5:2:Ada"]%string) mu0)) 5 = 2
  /\ entriesAt 5 (offsets (after (scanLoop fnv1a ["5:1:Ada"; "5:2:Ada"]%string) mu0))
     = 1%nat
  /\ sizeAt (offsetSize (after (scanLoop fnv1a ["5:1:Ada"; "5:2:Ada"]%string) mu0)) 5
     <> Z.of_nat (entriesAt 5
          (offsets (after (scanLoop fnv1a ["5:1:Ada"; "5:2:Ada"]%string) mu0))).
Proof. vm_compute. repeat split; discriminate. Qed.

(** The first malformed line of a stream that has one. *)
Lemma first_malformed lines :
  Exists malformed lines ->
  exists pre bad post,
    lines = pre ++ bad :: post /\ Forall accepted pre /\ ~ accepted bad.
Proof.
  induction lines as [|text lines IH]; intros Hex; [by inversion Hex|].
  destruct (accepted_dec text) as [Hacc|Hrej].
  - destruct IH as (pre & bad & post & -> & Hpre & Hbad).
    + inversion Hex as [? ? Hm|? ? Hm]; subst; [|done].
      by apply malformed_rejected in Hm.
    + exists (text :: pre), bad, post. split; [done|]. split; [by constructor|done].
  - exists [], text, lines. split; [done|]. split; [constructor|done].
Qed.

(** C3: a load whose stream contains a malformed line returns an error.
    The lines before the first malformed one are all well formed, and the
    load ends at that line: the state it leaves is the one a load of those
    earlier lines alone leaves, whatever follows the malformed line.  When
    the three collaborators have started, the error is the one of that line
    and the state is the one reached by reading the earlier lines. *)
Theorem malformed_line_aborts (Hash64 : string -> N) (src : indexSource)
    (st : muState) :
  Exists malformed (scanned src) ->
  exists pre bad post err,
    scanned src = pre ++ bad :: post
    /\ Forall (fun text => ~ malformed text) pre
    /\ malformed bad
    /\ result (loadIndex Hash64 src) st = Some err
    /\ after (loadIndex Hash64 src) st
       = after (loadIndex Hash64 (withLines src pre)) st
    /\ (bleve_New src = None -> os_Open src = None ->
        pbzip2_NewReader src = None ->
        Some err = snd (parseLine bad)
        /\ after (loadIndex Hash64 src) st = after (scanLoop Hash64 pre) st).
Proof.
  intros Hex.
  destruct (first_malformed _ Hex) as (pre & bad & post & Hlines & Hpre & Hbad).
  assert (Hscan : scanLoop Hash64 (scanned src) st
                  = (snd (parseLine bad), after (scanLoop Hash64 pre) st)).
  { rewrite Hlines, scanLoop_app by done. by apply scanLoop_cons_rejected. }
  assert (Herr : exists err, snd (parseLine bad) = Some err).
  { unfold accepted in Hbad. destruct (snd (parseLine bad)) as [err|]; [by exists err|done]. }
  destruct Herr as [err Herr].
  assert (Hres : exists err', result (loadIndex Hash64 src) st = Some err'
                   /\ (bleve_New src = None -> os_Open src = None ->
                       pbzip2_NewReader src = None -> err' = err)).
  { unfold result, loadIndex, bind, ret.
    destruct (bleve_New src) as [e|]; [exists e; by split|].
    destruct (os_Open src) as [e|]; [exists e; by split|].
    destruct (pbzip2_NewReader src) as [e|]; [exists e; by split|].
    rewrite Hscan, Herr. exists err. by split. }
  destruct Hres as (err' & Hres & Hsame).
  exists pre, bad, post, err'. split; [done|]. split.
  { eapply List.Forall_impl; [|exact Hpre]. intros text Hacc Hm.
    by apply malformed_rejected in Hm. }
  split; [by apply malformed_rejected|]. split; [done|]. split.
  - unfold after, loadIndex, withLines, bind, ret; simpl.
    destruct (bleve_New src); [done|]. destruct (os_Open src); [done|].
    destruct (pbzip2_NewReader src); [done|].
    rewrite Hscan, Herr. simpl.
    pose proof (scanLoop_accepted Hash64 pre st Hpre) as Hnone.
    unfold result, after in *.
    destruct (scanLoop Hash64 pre st) as [r st']; simpl in *. by subst r.
  - intros H1 H2 H3. split; [rewrite Herr; f_equal; by apply Hsame|].
    unfold after. rewrite loadIndex_started by done. simpl.
    unfold after. by rewrite Hscan.
Qed.

Lemma malformed_line_aborts_witness :
  exists pre bad post err,
    ["7:1:Ada"; "8:x:Bob"; "9:3:Cy"]%string = pre ++ bad :: post
    /\ Forall (fun text => ~ malformed text) pre
    /\ malformed bad
    /\ result (loadIndex fnv1a (fileOf ["7:1:Ada"; "8:x:Bob"; "9:3:Cy"]%string)) mu0
       = Some err
    /\ after (loadIndex fnv1a (fileOf ["7:1:Ada"; "8:x:Bob"; "9:3:Cy"]%string)) mu0
       = after (loadIndex fnv1a
                  (withLines (fileOf ["7:1:Ada"; "8:x:Bob"; "9:3:Cy"]%string) pre)) mu0
    /\ (bleve_New (fileOf ["7:1:Ada"; "8:x:Bob"; "9:3:Cy"]%string) = None ->
        os_Open (fileOf ["7:1:Ada"; "8:x:Bob"; "9:3:Cy"]%string) = None ->
        pbzip2_NewReader (fileOf ["7:1:Ada"; "8:x:Bob"; "9:3:Cy"]%string) = None ->
        Some err = snd (parseLine bad)
        /\ after (loadIndex fnv1a (fileOf ["7:1:Ada"; "8:x:Bob"; "9:3:Cy"]%string)) mu0
           = after (scanLoop fnv1a pre) mu0).
Proof.
  apply (malformed_line_aborts fnv1a
           (fileOf ["7:1:Ada"; "8:x:Bob"; "9:3:Cy"]%string) mu0).
  apply Exists_cons_tl, Exists_cons_hd. right. right. reflexivity.
Defined.

(** The lines before the malformed one stay loaded, the ones after it are
    never read. *)
Example malformed_line_partial_state :
  result (loadIndex fnv1a (fileOf ["7:1:Ada"; "8:x:Bob"; "9:3:Cy"]%string)) mu0
  = Some (ErrSyntax "x")
  /\ after (loadIndex fnv1a (fileOf ["7:1:Ada"; "8:x:Bob"; "9:3:Cy"]%string)) mu0
     = after (scanLoop fnv1a ["7:1:Ada"%string]) mu0
  /\ offsets (after (loadIndex fnv1a
                 (fileOf ["7:1:Ada"; "8:x:Bob"; "9:3:Cy"]%string)) mu0) !! fnv1a "Cy"
     = None
  /\ result (loadIndex fnv1a (fileOf ["7:1:Ada"; "8:2"]%string)) mu0
     = Some (ErrParts ["8"; "2"]%string).
Proof. vm_compute. repeat split; reflexivity. Qed.

(** C6: [fetchArticle] looks the name up by its own hash first and returns
    that entry when there is one, also when the normalized name has an entry
    of its own; only when the name itself has none does it look up the hash
    of [strings.Title(strings.ToLower(name))] and return that entry; when
    neither has one it returns the 404 status error carrying the name as it
    was given. *)
Theorem fetch_exact_then_normalized (Hash64 : string -> N)
    (ToLower strings_Title : string -> string) (st : muState) (name : string) :
  (forall e, offsets st !! Hash64 name = Some e ->
             result (fetchArticle Hash64 ToLower strings_Title name) st = (e, None))
  /\ (forall e e', offsets st !! Hash64 name = Some e ->
                   offsets st !! Hash64 (strings_Title (ToLower name)) = Some e' ->
                   result (fetchArticle Hash64 ToLower strings_Title name) st
                   = (e, None))
  /\ (forall e, offsets st !! Hash64 name = None ->
                offsets st !! Hash64 (strings_Title (ToLower name)) = Some e ->
                result (fetchArticle Hash64 ToLower strings_Title name) st
                = (e, None))
  /\ (offsets st !! Hash64 name = None ->
      offsets st !! Hash64 (strings_Title (ToLower name)) = None ->
      result (fetchArticle Hash64 ToLower strings_Title name) st
      = (zeroEntry, Some (ErrStatus StatusNotFound name))).
Proof.
  unfold result. repeat split.
  - intros e H. by rewrite (fetchArticle_exact _ _ _ _ _ _ H).
  - intros e e' H _. by rewrite (fetchArticle_exact _ _ _ _ _ _ H).
  - intros e H1 H2. by rewrite (fetchArticle_normalized _ _ _ _ _ _ H1 H2).
  - intros H1 H2. by rewrite (fetchArticle_missing _ _ _ _ _ H1 H2).
Qed.

Lemma fetch_exact_then_normalized_witness :
  result (fetchArticle fnv1a asciiToLower asciiTitle "foo bar")
         (after (scanLoop fnv1a ["3:7:Foo Bar"; "4:8:foo bar"]%string) mu0)
  = (mkEntry 8 4, None)
  /\ result (fetchArticle fnv1a asciiToLower asciiTitle "foo bar")
            (after (scanLoop fnv1a ["3:7:Foo Bar"]%string) mu0)
     = (mkEntry 7 3, None)
  /\ result (fetchArticle fnv1a asciiToLower asciiTitle "foo baz")
            (after (scanLoop fnv1a ["3:7:Foo Bar"]%string) mu0)
     = (zeroEntry, Some (ErrStatus StatusNotFound "foo baz")).
Proof.
  split; [|split].
  - destruct (fetch_exact_then_normalized fnv1a asciiToLower asciiTitle
                (after (scanLoop fnv1a ["3:7:Foo Bar"; "4:8:foo bar"]%string) mu0)
                "foo bar") as (_ & Hboth & _).
    apply (Hboth (mkEntry 8 4) (mkEntry 7 3)); reflexivity.
  - destruct (fetch_exact_then_normalized fnv1a asciiToLower asciiTitle
                (after (scanLoop fnv1a ["3:7:Foo Bar"]%string) mu0)
                "foo bar") as (_ & _ & Hnorm & _).
    apply (Hnorm (mkEntry 7 3)); reflexivity.
  - destruct (fetch_exact_then_normalized fnv1a asciiToLower asciiTitle
                (after (scanLoop fnv1a ["3:7:Foo Bar"]%string) mu0)
                "foo baz") as (_ & _ & _ & Hnone).
    apply Hnone; reflexivity.
Defined.

(** ** The random pick *)

Lemma keys_in_map (m : gmap N indexEntry) (h : N) :
  In h (map_to_list m).*1 -> exists e, m !! h = Some e.
Proof.
  intros Hin. apply list_elem_of_In, list_elem_of_fmap in Hin as [[h' e] [-> Hin]].
  exists e. by apply elem_of_map_to_list in Hin.
Qed.

(** C7, as amended: on an empty index [randomArticleHash] returns the error
    ["no articles"], and so does [randomArticle], without a page; on an
    index that is not empty [randomArticleHash] returns a nil error and a
    hash that is a key of the index, and [randomArticle] returns what
    [readArticle] returns for the entry stored under that hash, be it a
    page or an error. *)
Theorem random_pick (st : muState) (choice : nat) :
  (offsets st = ∅ ->
     result (randomArticleHash choice) st = (0%N, Some ErrNoArticles)
     /\ forall (decoder : Type) (archive : articles decoder),
          result (randomArticle archive choice) st
          = (zeroPage, Some ErrNoArticles))
  /\ (offsets st <> ∅ ->
      exists h e,
        result (randomArticleHash choice) st = (h, None)
        /\ offsets st !! h = Some e
        /\ forall (decoder : Type) (archive : articles decoder),
             randomArticle archive choice st = readArticle archive e st).
Proof.
  split.
  - intros Hempty. unfold result, randomArticle, randomArticleHash, bind, get, ret.
    rewrite Hempty, map_to_list_empty. simpl. done.
  - intros Hne. unfold result, randomArticle, randomArticleHash, bind, get, ret.
    destruct ((map_to_list (offsets st)).*1) as [|k keys] eqn:Hkeys.
    + exfalso. apply Hne. apply fmap_nil_inv in Hkeys.
      by apply map_to_list_empty_iff.
    + set (h := nth (choice mod length (k :: keys)) (k :: keys) k).
      assert (Hin : In h (map_to_list (offsets st)).*1).
      { rewrite Hkeys. apply nth_In. apply Nat.mod_upper_bound. simpl. lia. }
      destruct (keys_in_map _ _ Hin) as [e He].
      exists h, e. split; [done|]. split; [done|].
      intros decoder archive. simpl. by rewrite He.
Qed.

Lemma random_pick_witness :
  (result (randomArticleHash 5) mu0 = (0%N, Some ErrNoArticles)
   /\ forall (decoder : Type) (archive : articles decoder),
        result (randomArticle archive 5) mu0 = (zeroPage, Some ErrNoArticles))
  /\ exists h e,
       result (randomArticleHash 5)
              (after (scanLoop fnv1a ["3:7:Foo Bar"; "4:8:Baz"]%string) mu0)
       = (h, None)
       /\ offsets (after (scanLoop fnv1a ["3:7:Foo Bar"; "4:8:Baz"]%string) mu0) !! h
          = Some e
       /\ forall (decoder : Type) (archive : articles decoder),
            randomArticle archive 5
              (after (scanLoop fnv1a ["3:7:Foo Bar"; "4:8:Baz"]%string) mu0)
            = readArticle archive e
                (after (scanLoop fnv1a ["3:7:Foo Bar"; "4:8:Baz"]%string) mu0).
Proof.
  split.
  - apply (random_pick mu0 5). reflexivity.
  - apply (random_pick
             (after (scanLoop fnv1a ["3:7:Foo Bar"; "4:8:Baz"]%string) mu0) 5).
    intros Hempty.
    assert (Hsize : size (offsets (after (scanLoop fnv1a
                       ["3:7:Foo Bar"; "4:8:Baz"]%string) mu0)) = 0%nat)
      by (rewrite Hempty; apply map_size_empty).
    vm_compute in Hsize. discriminate Hsize.
Defined.

(** C7, as stated, fails for [randomArticle]: on an index that is not
    empty it returns the errors of [readArticle].  The index holds the one
    line [1024:42:Test Article]; when the block at that offset starts with
    another document, [randomArticle] returns the error about 1 try, and
    when the archive does not open it returns the error of the open. *)
Lemma random_article_fails_on_loaded_index :
  result (scanLoop fnv1a ["1024:42:Test Article"%string]) mu0 = None
  /\ size (offsets (after (scanLoop fnv1a ["1024:42:Test Article"%string]) mu0))
     = 1%nat
  /\ result (randomArticleHash 0)
            (after (scanLoop fnv1a ["1024:42:Test Article"%string]) mu0)
     = (fnv1a "Test Article", None)
  /\ result (randomArticle (listArchive (fun _ => [inl (doc 7 "Other Page")])) 0)
            (after (scanLoop fnv1a ["1024:42:Test Article"%string]) mu0)
     = (zeroPage, Some (ErrTries 1))
  /\ snd (result (randomArticle
                    (listArchive (fun _ => [inl (doc 7 "Other Page")])) 0)
                 (after (scanLoop fnv1a ["1024:42:Test Article"%string]) mu0))
     <> None
  /\ result (randomArticle
               (mkArticles (list (page + error)) (Some (ErrExt "no such file"))
                           (fun _ => None)
                           (fun _ => [inl (doc 42 "Test Article")]) listDecode) 0)
            (after (scanLoop fnv1a ["1024:42:Test Article"%string]) mu0)
     = (zeroPage, Some (ErrExt "no such file")).
Proof. vm_compute. repeat split; discriminate. Qed.

(** ** The block reader *)

Section ReaderFacts.
Context {decoder : Type}.
Variable archive : articles decoder.

Lemma decodeLoop_calls tries maxTries meta d p calls :
  (snd (decodeLoop archive tries maxTries meta d p calls) <= calls + tries)%nat.
Proof.
  revert d p calls. induction tries as [|tries IH]; intros d p calls; simpl; [lia|].
  destruct (xmlDecode archive d p) as [[d' p'] [err|]]; simpl; [lia|].
  destruct (ID p' =? id meta); simpl; [lia|].
  specialize (IH d' p' (S calls)). lia.
Qed.

(** A page is only ever returned right after its id compared equal. *)
Lemma decodeLoop_found tries maxTries meta d p calls :
  snd (fst (decodeLoop archive tries maxTries meta d p calls)) = None ->
  ID (fst (fst (decodeLoop archive tries maxTries meta d p calls))) = id meta.
Proof.
  revert d p calls. induction tries as [|tries IH]; intros d p calls; simpl; [done|].
  destruct (xmlDecode archive d p) as [[d' p'] [err|]]; simpl; [done|].
  destruct (ID p' =? id meta) eqn:Hid; simpl; [intros _; lia|apply IH].
Qed.

(** The loop stops at the first document whose id matches. *)
Lemma decodeLoop_first pre : forall q tries maxTries meta d p calls,
  decodeN archive (S (length pre)) d p = Some (pre ++ [q]) ->
  Forall (fun doc => ID doc <> id meta) pre ->
  ID q = id meta ->
  (length pre < tries)%nat ->
  decodeLoop archive tries maxTries meta d p calls
  = ((q, None), (calls + S (length pre))%nat).
Proof.
  induction pre as [|doc pre IH]; intros q tries maxTries meta d p calls Hdec Hpre Hq Hlt.
  - destruct tries as [|tries]; [simpl in Hlt; lia|].
    cbn [length decodeN] in Hdec. cbn [decodeLoop].
    destruct (xmlDecode archive d p) as [[d' p'] [err|]]; [done|].
    injection Hdec as ->. rewrite Hq, Z.eqb_refl. f_equal. simpl. lia.
  - destruct tries as [|tries]; [simpl in Hlt; lia|].
    apply Forall_cons_iff in Hpre as [Hdoc Hpre].
    cbn [length] in Hdec. rewrite <- app_comm_cons in Hdec.
    change (decodeN archive (S (S (length pre))) d p)
      with (match xmlDecode archive d p with
            | (_, Some _) => None
            | ((d', p'), None) =>
                match decodeN archive (S (length pre)) d' p' with
                | Some ps => Some (p' :: ps)
                | None => None
                end
            end) in Hdec.
    cbn [decodeLoop].
    destruct (xmlDecode archive d p) as [[d' p'] [err|]]; [done|].
    destruct (decodeN archive (S (length pre)) d' p') as [docs|] eqn:Hrest; [|done].
    injection Hdec as -> ->.
    destruct (Z.eqb_spec (ID doc) (id meta)) as [Heq|_]; [done|].
    rewrite (IH q tries maxTries meta d' doc (S calls) Hrest Hpre Hq)
      by (simpl in Hlt; lia).
    f_equal. simpl. lia.
Qed.

(** With no match among the documents of all its rounds the loop ends in
    the error that names the number of tries. *)
Lemma decodeLoop_exhausted tries : forall docs maxTries meta d p calls,
  decodeN archive tries d p = Some docs ->
  Forall (fun doc => ID doc <> id meta) docs ->
  decodeLoop archive tries maxTries meta d p calls
  = ((zeroPage, Some (ErrTries maxTries)), (calls + tries)%nat).
Proof.
  induction tries as [|tries IH]; intros docs maxTries meta d p calls Hdec Hdocs.
  - simpl. f_equal. lia.
  - cbn [decodeN] in Hdec. cbn [decodeLoop].
    destruct (xmlDecode archive d p) as [[d' p'] [err|]]; [done|].
    destruct (decodeN archive tries d' p') as [rest|] eqn:Hrest; [|done].
    injection Hdec as <-.
    apply Forall_cons_iff in Hdocs as [Hdoc Hdocs].
    destruct (Z.eqb_spec (ID p') (id meta)) as [Heq|_]; [done|].
    rewrite (IH rest maxTries meta d' p' (S calls) Hrest Hdocs). f_equal. lia.
Qed.

Lemma readArticleCalls_reached meta st :
  osOpen archive = None -> fSeek archive (seek meta) = None ->
  readArticleCalls archive meta st
  = (decodeLoop archive (Z.to_nat (sizeAt (offsetSize st) (seek meta)))
       (sizeAt (offsetSize st) (seek meta)) meta
       (xmlNewDecoder archive (seek meta)) zeroPage O, st).
Proof.
  intros Hopen Hseek. unfold readArticleCalls, bind, get, ret.
  by rewrite Hopen, Hseek.
Qed.

Lemma readArticleCalls_frame meta st :
  after (readArticleCalls archive meta) st = st.
Proof.
  unfold after, readArticleCalls, bind, get, ret.
  destruct (osOpen archive); [done|].
  destruct (fSeek archive (seek meta)); done.
Qed.

Lemma readArticle_result meta st :
  result (readArticle archive meta) st
  = fst (result (readArticleCalls archive meta) st).
Proof.
  unfold result, readArticle, bind, ret.
  by destruct (readArticleCalls archive meta st).
Qed.

Lemma readArticle_frame meta st : after (readArticle archive meta) st = st.
Proof.
  pose proof (readArticleCalls_frame meta st) as H.
  unfold after, readArticle, bind, ret in *.
  by destruct (readArticleCalls archive meta st).
Qed.
End ReaderFacts.

(** C5: with [k] the count recorded for the entry's offset, [readArticle]
    makes at most [k] [Decode] calls; a page it returns without error has
    the id of the entry; once the archive is open at the block, if the
    documents decoded in order first show the entry's id at some position
    within the first [k], the page returned is the document at that
    position and the number of [Decode] calls is that position, none being
    made after it; and if [k] documents are decoded and none has the
    entry's id, the result is the error ["failed to find page after k
    tries"] with the zero page, after exactly [k] calls. *)
Theorem bounded_block_scan {decoder : Type} (archive : articles decoder)
    (meta : indexEntry) (st : muState) :
  (snd (result (readArticleCalls archive meta) st)
   <= Z.to_nat (sizeAt (offsetSize st) (seek meta)))%nat
  /\ result (readArticle archive meta) st
     = fst (result (readArticleCalls archive meta) st)
  /\ (snd (result (readArticle archive meta) st) = None ->
      ID (fst (result (readArticle archive meta) st)) = id meta)
  /\ (forall pre q,
        osOpen archive = None -> fSeek archive (seek meta) = None ->
        decodeN archive (S (length pre)) (xmlNewDecoder archive (seek meta)) zeroPage
        = Some (pre ++ [q]) ->
        Forall (fun doc => ID doc <> id meta) pre ->
        ID q = id meta ->
        (length pre < Z.to_nat (sizeAt (offsetSize st) (seek meta)))%nat ->
        result (readArticleCalls archive meta) st = ((q, None), S (length pre)))
  /\ (forall docs,
        osOpen archive = None -> fSeek archive (seek meta) = None ->
        decodeN archive (Z.to_nat (sizeAt (offsetSize st) (seek meta)))
                (xmlNewDecoder archive (seek meta)) zeroPage = Some docs ->
        Forall (fun doc => ID doc <> id meta) docs ->
        result (readArticleCalls archive meta) st
        = ((zeroPage, Some (ErrTries (sizeAt (offsetSize st) (seek meta)))),
           Z.to_nat (sizeAt (offsetSize st) (seek meta)))).
Proof.
  split; [|split; [apply readArticle_result|split; [|split]]].
  - unfold result, readArticleCalls, bind, get, ret.
    destruct (osOpen archive); [simpl; lia|].
    destruct (fSeek archive (seek meta)); [simpl; lia|]. simpl.
    etrans; [apply decodeLoop_calls|]. lia.
  - rewrite readArticle_result.
    unfold result, readArticleCalls, bind, get, ret.
    destruct (osOpen archive); [done|].
    destruct (fSeek archive (seek meta)); [done|]. simpl.
    apply decodeLoop_found.
  - intros pre q Hopen Hseek Hdec Hpre Hq Hlt. unfold result.
    rewrite readArticleCalls_reached by done. simpl.
    by rewrite (decodeLoop_first archive pre q _ _ _ _ _ O Hdec Hpre Hq Hlt).
  - intros docs Hopen Hseek Hdec Hdocs. unfold result.
    rewrite readArticleCalls_reached by done. simpl.
    by rewrite (decodeLoop_exhausted archive _ docs _ _ _ _ O Hdec Hdocs).
Qed.

Lemma bounded_block_scan_witness :
  result (readArticleCalls
            (listArchive (fun _ => [inl (doc 42 "Test Article");
                                    inl (doc 43 "Other Page");
                                    inl (doc 44 "Third")]))
            (mkEntry 43 1024))
         (after (scanLoop fnv1a ["1024:42:Test Article"; "1024:43:Other Page"]%string)
                mu0)
  = ((doc 43 "Other Page", None), 2%nat)
  /\ result (readArticleCalls
               (listArchive (fun _ => [inl (doc 42 "Test Article");
                                       inl (doc 43 "Other Page");
                                       inl (doc 44 "Third")]))
               (mkEntry 44 1024))
            (after (scanLoop fnv1a ["1024:42:Test Article"; "1024:43:Other Page"]%string)
                   mu0)
     = ((zeroPage, Some (ErrTries 2)), 2%nat).
Proof.
  split.
  - destruct (bounded_block_scan
                (listArchive (fun _ => [inl (doc 42 "Test Article");
                                        inl (doc 43 "Other Page");
                                        inl (doc 44 "Third")]))
                (mkEntry 43 1024)
                (after (scanLoop fnv1a
                          ["1024:42:Test Article"; "1024:43:Other Page"]%string) mu0))
      as (_ & _ & _ & Hfirst & _).
    apply (Hfirst [doc 42 "Test Article"] (doc 43 "Other Page"));
      try reflexivity.
    + repeat constructor. vm_compute. discriminate.
    + vm_compute. lia.
  - destruct (bounded_block_scan
                (listArchive (fun _ => [inl (doc 42 "Test Article");
                                        inl (doc 43 "Other Page");
                                        inl (doc 44 "Third")]))
                (mkEntry 44 1024)
                (after (scanLoop fnv1a
                          ["1024:42:Test Article"; "1024:43:Other Page"]%string) mu0))
      as (_ & _ & _ & _ & Hnone).
    apply (Hnone [doc 42 "Test Article"; doc 43 "Other Page"]);
      try reflexivity.
    repeat constructor; vm_compute; discriminate.
Defined.

(** C10, as amended: when the entry's offset is not a key of
    [mu.offsetSize], [readArticle] makes no [Decode] call; and provided the
    archive opens and the seek to the offset succeeds, it returns the error
    ["failed to find page after 0 tries"], whatever the archive holds at
    that offset. *)
Theorem unknown_offset_no_tries {decoder : Type} (archive : articles decoder)
    (meta : indexEntry) (st : muState) :
  offsetSize st !! seek meta = None ->
  snd (result (readArticleCalls archive meta) st) = O
  /\ (osOpen archive = None -> fSeek archive (seek meta) = None ->
      result (readArticle archive meta) st = (zeroPage, Some (ErrTries 0))).
Proof.
  intros Hkey.
  assert (Hzero : sizeAt (offsetSize st) (seek meta) = 0)
    by (unfold sizeAt; by rewrite Hkey).
  split.
  - unfold result, readArticleCalls, bind, get, ret.
    destruct (osOpen archive); [done|].
    destruct (fSeek archive (seek meta)); [done|]. simpl. by rewrite Hzero.
  - intros Hopen Hseek. rewrite readArticle_result. unfold result.
    rewrite readArticleCalls_reached by done. simpl. by rewrite Hzero.
Qed.

Lemma unknown_offset_no_tries_witness :
  snd (result (readArticleCalls
                 (listArchive (fun _ => [inl (doc 42 "Test Article")]))
                 (mkEntry 42 2048))
              (after (scanLoop fnv1a ["1024:42:Test Article"]%string) mu0)) = O
  /\ result (readArticle
               (listArchive (fun _ => [inl (doc 42 "Test Article")]))
               (mkEntry 42 2048))
            (after (scanLoop fnv1a ["1024:42:Test Article"]%string) mu0)
     = (zeroPage, Some (ErrTries 0)).
Proof.
  destruct (unknown_offset_no_tries
              (listArchive (fun _ => [inl (doc 42 "Test Article")]))
              (mkEntry 42 2048)
              (after (scanLoop fnv1a ["1024:42:Test Article"]%string) mu0))
    as [Hcalls Herr].
  - reflexivity.
  - split; [exact Hcalls|]. apply Herr; reflexivity.
Defined.

(** C10, as stated, fails: the offset -1 is not a key of [mu.offsetSize],
    the seek to it fails, and [readArticle] returns the error of the seek,
    not the error about 0 tries; likewise when the archive does not open. *)
Lemma unknown_offset_other_error :
  offsetSize mu0 !! seek (mkEntry 42 (-1)) = None
  /\ result (readArticle (listArchive (fun _ => [inl (doc 42 "Test Article")]))
                         (mkEntry 42 (-1))) mu0
     = (zeroPage, Some (ErrExt "invalid argument"))
  /\ result (readArticle (listArchive (fun _ => [inl (doc 42 "Test Article")]))
                         (mkEntry 42 (-1))) mu0
     <> (zeroPage, Some (ErrTries 0))
  /\ result (readArticle
               (mkArticles (list (page + error)) (Some (ErrExt "no such file"))
                           (fun _ => None) (fun _ => []) listDecode)
               (mkEntry 42 0)) mu0
     = (zeroPage, Some (ErrExt "no such file")).
Proof. vm_compute. repeat split; discriminate. Qed.

(** ** Lookups leave the index alone *)

(** C8: [fetchArticle], [randomArticleHash], [readArticle] and
    [randomArticle] leave [mu.offsets] and [mu.offsetSize] as they found
    them, whether they return an error or not; so a second [readArticle] on
    the same entry and archive returns what the first returned. *)
Theorem lookups_frame (Hash64 : string -> N)
    (ToLower strings_Title : string -> string) {decoder : Type}
    (archive : articles decoder) (st : muState) (name : string)
    (choice : nat) (meta : indexEntry) :
  after (fetchArticle Hash64 ToLower strings_Title name) st = st
  /\ after (randomArticleHash choice) st = st
  /\ after (readArticle archive meta) st = st
  /\ after (randomArticle archive choice) st = st
  /\ bind (readArticle archive meta)
          (fun first => bind (readArticle archive meta)
                             (fun second => ret (first, second))) st
     = ((result (readArticle archive meta) st,
         result (readArticle archive meta) st), st).
Proof.
  assert (Hrandom : after (randomArticleHash choice) st = st).
  { unfold after, randomArticleHash, bind, get, ret.
    by destruct ((map_to_list (offsets st)).*1). }
  split; [|split; [done|split; [apply readArticle_frame|split]]].
  - unfold after, fetchArticle, bind, get, ret.
    destruct (offsets st !! Hash64 name); [done|].
    by destruct (offsets st !! Hash64 (strings_Title (ToLower name))).
  - unfold after, randomArticle, bind in *.
    destruct (randomArticleHash choice st) as [[h err] st'] eqn:Hpick.
    simpl in Hrandom. subst st'. destruct err; [done|].
    unfold get. apply readArticle_frame.
  - pose proof (readArticle_frame archive meta st) as Hframe.
    unfold bind, ret, result, after in *.
    destruct (readArticle archive meta st) as [r st'] eqn:Hfirst.
    simpl in Hframe. subst st'. by rewrite Hfirst.
Qed.

(** ** The counterexamples do not depend on the hash function *)

(** Two lines with the same title hash alike under every hash function:
    the counter of their offset is 2 and the index has one entry there. *)
Lemma duplicate_title_any_hash (Hash64 : string -> N) :
  sizeAt (offsetSize (after (scanLoop Hash64 ["5:1:Ada"; "5:2:Ada"]%string) mu0)) 5 = 2
  /\ entriesAt 5 (offsets (after (scanLoop Hash64 ["5:1:Ada"; "5:2:Ada"]%string) mu0))
     = 1%nat.
Proof.
  assert (Hscan : after (scanLoop Hash64 ["5:1:Ada"; "5:2:Ada"]%string) mu0
                  = mkMu {[ Hash64 "Ada" := mkEntry 2 5 ]} {[ 5 := 2 ]}).
  { rewrite !after_scanLoop_cons by reflexivity.
    change (titleOf "5:1:Ada") with "Ada"%string.
    change (titleOf "5:2:Ada") with "Ada"%string.
    change (entryOf "5:1:Ada") with (mkEntry 1 5).
    change (entryOf "5:2:Ada") with (mkEntry 2 5).
    unfold after, store, modify, sizeAt; simpl.
    rewrite insert_insert_eq, lookup_insert_eq, insert_insert_eq. simpl.
    by rewrite !insert_empty. }
  rewrite Hscan. split.
  - unfold sizeAt. simpl. by rewrite lookup_singleton_eq.
  - unfold entriesAt. simpl. rewrite map_filter_singleton_True by done.
    apply map_size_singleton.
Qed.

(** Under every hash function that tells ["Foo"] from ["foo"], the index
    built from the line [0:1:foo] has no entry for the normalized form of
    that title. *)
Lemma normalized_title_any_hash (Hash64 : string -> N) :
  Hash64 "Foo" <> Hash64 "foo" ->
  result (fetchArticle Hash64 asciiToLower asciiTitle "Foo")
         (after (loadIndex Hash64 (fileOf ["0:1:foo"%string])) mu0)
  = (zeroEntry, Some (ErrStatus StatusNotFound "Foo")).
Proof.
  intros Hne. unfold after at 1. rewrite loadIndex_started by reflexivity.
  cbn [snd scanned fileOf]. rewrite after_scanLoop_cons by reflexivity.
  change (titleOf "0:1:foo") with "foo"%string.
  change (entryOf "0:1:foo") with (mkEntry 1 0).
  unfold result. rewrite fetchArticle_missing; [done| |].
  - cbn [scanLoop after ret snd]. rewrite offsets_store. by case_decide.
  - change (asciiTitle (asciiToLower "Foo")) with "Foo"%string.
    cbn [scanLoop after ret snd]. rewrite offsets_store. by case_decide.
Qed.

(** ** What the index holds after a load *)

Section IndexContents.
Variable Hash64 : string -> N.

(** The entry under a hash after reading lines: that of the last line read
    with that hash, the one that was there before when there is none. *)
Lemma offsets_scan_lookup lines : forall st h,
  Forall accepted lines ->
  offsets (after (scanLoop Hash64 lines) st) !! h
  = match lastEntry Hash64 h lines with
    | Some e => Some e
    | None => offsets st !! h
    end.
Proof.
  induction lines as [|text rest IH]; intros st h Hacc; [reflexivity|].
  apply Forall_cons_iff in Hacc as [Htext Hrest].
  rewrite after_scanLoop_cons, IH by done. cbn [lastEntry].
  destruct (lastEntry Hash64 h rest) as [e|]; [done|].
  rewrite offsets_store. by case_decide.
Qed.

Lemma lastEntry_Some_in h lines e :
  lastEntry Hash64 h lines = Some e ->
  exists text, In text lines /\ Hash64 (titleOf text) = h /\ entryOf text = e.
Proof.
  induction lines as [|text rest IH]; simpl; [done|].
  destruct (lastEntry Hash64 h rest) as [e'|].
  - intros [= ->]. destruct IH as (text' & Hin & Hh & He); [done|].
    exists text'. auto.
  - case_decide; [|done]. intros [= <-]. exists text. auto.
Qed.

Lemma lastEntry_None h lines :
  lastEntry Hash64 h lines = None
  <-> Forall (fun text => Hash64 (titleOf text) <> h) lines.
Proof.
  induction lines as [|text rest IH]; simpl; [split; [constructor|done]|].
  rewrite Forall_cons_iff, <- IH.
  destruct (lastEntry Hash64 h rest) as [e|]; [split; [done|by intros [_ ?]]|].
  case_decide; split; try done; by intros [? _].
Qed.

(** With hashes that differ from line to line, the last line with a hash is
    the only one. *)
Lemma lastEntry_unique h lines text :
  NoDup (map (fun text => Hash64 (titleOf text)) lines) ->
  In text lines -> Hash64 (titleOf text) = h ->
  lastEntry Hash64 h lines = Some (entryOf text).
Proof.
  induction lines as [|text' rest IH]; simpl; [done|].
  intros Hnd Hin Hh. apply list.NoDup_cons in Hnd as [Hfresh Hnd].
  destruct Hin as [->|Hin].
  - assert (Hnone : lastEntry Hash64 h rest = None).
    { apply lastEntry_None, Forall_forall. intros text' Hin' Heq.
      apply Hfresh, list_elem_of_In, in_map_iff. exists text'.
      split; [congruence|done]. }
    rewrite Hnone. by rewrite decide_True.
  - by rewrite IH.
Qed.
End IndexContents.

(** ** Further properties of the loader *)

(** X1: the loader takes a line exactly when the line is
    [offset:id:title] with an offset and an id that [Atoi] reads; the entry
    and the title it takes are those three fields, so no other text yields
    the same entry and title. *)
Theorem line_taken_iff (text : string) (e : indexEntry) (t : string) :
  parseLine text = ((e, t), None)
  <-> exists a b, text = lineOf a b t
                  /\ Atoi a = (seek e, None) /\ Atoi b = (id e, None).
Proof.
  split; [apply parseLine_accepted|].
  intros (a & b & -> & Ha & Hb).
  rewrite (parseLine_lineOf a b t (seek e) (id e) Ha Hb). by destruct e.
Qed.

Lemma line_taken_iff_witness :
  parseLine "1024:-42:A:B" = ((mkEntry (-42) 1024, "A:B"%string), None)
  /\ exists a b, "0:+7:"%string = lineOf a b ""
                 /\ Atoi a = (0, None) /\ Atoi b = (7, None).
Proof.
  split.
  - apply (line_taken_iff "1024:-42:A:B" (mkEntry (-42) 1024) "A:B").
    exists "1024"%string, "-42"%string. repeat split; reflexivity.
  - apply (line_taken_iff "0:+7:" (mkEntry 7 0) ""). reflexivity.
Defined.

(** X2: [loadIndex] returns no error exactly when the bleve index, the
    index file and the bzip2 reader all start, no line of the stream is
    malformed, and the scanner reports no error at the end. *)
Theorem load_succeeds_iff (Hash64 : string -> N) (src : indexSource)
    (st : muState) :
  result (loadIndex Hash64 src) st = None
  <-> bleve_New src = None /\ os_Open src = None
      /\ pbzip2_NewReader src = None
      /\ Forall (fun text => ~ malformed text) (scanned src)
      /\ scanner_Err src = None.
Proof.
  split.
  - intros Hok. destruct (loadIndex_ok Hash64 src st Hok) as [Hacc _].
    unfold result, loadIndex, bind, ret in Hok.
    destruct (bleve_New src); [discriminate|].
    destruct (os_Open src); [discriminate|].
    destruct (pbzip2_NewReader src); [discriminate|].
    repeat split; try done.
    + eapply List.Forall_impl; [|exact Hacc]. intros text Ht Hm.
      by apply malformed_rejected in Hm.
    + destruct (scanLoop Hash64 (scanned src) st) as [[err|] st'];
        [discriminate|done].
  - intros (H1 & H2 & H3 & Hlines & H5).
    unfold result. rewrite loadIndex_started by done. simpl.
    rewrite scanLoop_accepted; [done|].
    eapply List.Forall_impl; [|exact Hlines]. intros text Hm.
    destruct (accepted_dec text) as [Hacc|Hrej]; [done|].
    by apply malformed_rejected in Hrej.
Qed.

Lemma load_succeeds_iff_witness :
  result (loadIndex fnv1a (fileOf ["7:1:Ada"; "8:2:Bob"]%string)) mu0 = None
  /\ ~ (bleve_New (mkSource None None None ["7:1:Ada"%string]
                            (Some (ErrExt "token too long"))) = None
        /\ os_Open (mkSource None None None ["7:1:Ada"%string]
                             (Some (ErrExt "token too long"))) = None
        /\ pbzip2_NewReader (mkSource None None None ["7:1:Ada"%string]
                                      (Some (ErrExt "token too long"))) = None
        /\ Forall (fun text => ~ malformed text)
                  (scanned (mkSource None None None ["7:1:Ada"%string]
                                     (Some (ErrExt "token too long"))))
        /\ scanner_Err (mkSource None None None ["7:1:Ada"%string]
                                 (Some (ErrExt "token too long"))) = None).
Proof.
  split.
  - apply (load_succeeds_iff fnv1a (fileOf ["7:1:Ada"; "8:2:Bob"]%string) mu0).
    repeat split; try reflexivity.
    repeat constructor; intros Hm; apply malformed_rejected in Hm; by apply Hm.
  - intros Hall.
    apply (load_succeeds_iff fnv1a
             (mkSource None None None ["7:1:Ada"%string]
                       (Some (ErrExt "token too long"))) mu0) in Hall.
    vm_compute in Hall. discriminate Hall.
Defined.

(** X3: when the collaborators start and every line is taken but the
    scanner ends with an error, [loadIndex] returns that error and leaves
    the index exactly as the same load without the scanner error, which
    succeeds, leaves it: all the lines read stay loaded. *)
Theorem scanner_error_keeps_index (Hash64 : string -> N) (src : indexSource)
    (st : muState) (err : error) :
  bleve_New src = None -> os_Open src = None -> pbzip2_NewReader src = None ->
  Forall accepted (scanned src) ->
  scanner_Err src = Some err ->
  result (loadIndex Hash64 src) st = Some err
  /\ result (loadIndex Hash64 (withScannerErr src None)) st = None
  /\ after (loadIndex Hash64 src) st
     = after (loadIndex Hash64 (withScannerErr src None)) st.
Proof.
  intros H1 H2 H3 Hacc Herr. unfold result, after.
  rewrite !loadIndex_started by done. simpl.
  rewrite (scanLoop_accepted Hash64 _ st Hacc), Herr. done.
Qed.

Lemma scanner_error_keeps_index_witness :
  result (loadIndex fnv1a (mkSource None None None ["7:1:Ada"; "8:2:Bob"]%string
                                    (Some (ErrExt "token too long")))) mu0
  = Some (ErrExt "token too long")
  /\ result (loadIndex fnv1a
               (withScannerErr
                  (mkSource None None None ["7:1:Ada"; "8:2:Bob"]%string
                            (Some (ErrExt "token too long"))) None)) mu0 = None
  /\ after (loadIndex fnv1a (mkSource None None None ["7:1:Ada"; "8:2:Bob"]%string
                                      (Some (ErrExt "token too long")))) mu0
     = after (loadIndex fnv1a
                (withScannerErr
                   (mkSource None None None ["7:1:Ada"; "8:2:Bob"]%string
                             (Some (ErrExt "token too long"))) None)) mu0.
Proof.
  apply (scanner_error_keeps_index fnv1a
           (mkSource None None None ["7:1:Ada"; "8:2:Bob"]%string
                     (Some (ErrExt "token too long"))) mu0
           (ErrExt "token too long")); try reflexivity.
  repeat constructor.
Defined.

(** X4: after a load into the empty index that reports no error, the index
    has an entry under a hash exactly when some line's title has that hash,
    and every entry it holds is the entry of such a line: the index holds
    nothing the stream did not give. *)
Theorem index_holds_loaded_titles (Hash64 : string -> N) (src : indexSource)
    (h : N) :
  result (loadIndex Hash64 src) mu0 = None ->
  (offsets (after (loadIndex Hash64 src) mu0) !! h = None
   <-> Forall (fun text => Hash64 (titleOf text) <> h) (scanned src))
  /\ (forall e, offsets (after (loadIndex Hash64 src) mu0) !! h = Some e ->
        exists text, In text (scanned src)
                     /\ Hash64 (titleOf text) = h /\ entryOf text = e).
Proof.
  intros Hok. destruct (loadIndex_ok Hash64 src mu0 Hok) as [Hacc ->].
  rewrite offsets_scan_lookup by done. simpl.
  destruct (lastEntry Hash64 h (scanned src)) as [e|] eqn:Hlast.
  - split.
    + split; [done|]. intros Hnone. apply lastEntry_None in Hnone. congruence.
    + intros e' [= <-]. by apply lastEntry_Some_in.
  - split; [|done]. rewrite lookup_empty. split; [|done].
    intros _. by apply lastEntry_None.
Qed.

Lemma index_holds_loaded_titles_witness :
  (offsets (after (loadIndex fnv1a (fileOf ["7:1:Ada"; "8:2:Bob"]%string)) mu0)
     !! fnv1a "Cy" = None
   <-> Forall (fun text => fnv1a (titleOf text) <> fnv1a "Cy")
              ["7:1:Ada"; "8:2:Bob"]%string)
  /\ (forall e,
        offsets (after (loadIndex fnv1a (fileOf ["7:1:Ada"; "8:2:Bob"]%string)) mu0)
          !! fnv1a "Cy" = Some e ->
        exists text, In text ["7:1:Ada"; "8:2:Bob"]%string
                     /\ fnv1a (titleOf text) = fnv1a "Cy" /\ entryOf text = e).
Proof.
  apply (index_holds_loaded_titles fnv1a
           (fileOf ["7:1:Ada"; "8:2:Bob"]%string) (fnv1a "Cy")).
  reflexivity.
Defined.

(** X5: after a load into the empty index that reports no error,
    [fetchArticle] on a name returns the 404 error carrying that name
    whenever no line's title has the hash of the name or of its normalized
    form. *)
Theorem fetch_unknown_title (Hash64 : string -> N)
    (ToLower strings_Title : string -> string) (src : indexSource)
    (name : string) :
  result (loadIndex Hash64 src) mu0 = None ->
  Forall (fun text => Hash64 (titleOf text) <> Hash64 name) (scanned src) ->
  Forall (fun text => Hash64 (titleOf text)
                      <> Hash64 (strings_Title (ToLower name))) (scanned src) ->
  result (fetchArticle Hash64 ToLower strings_Title name)
         (after (loadIndex Hash64 src) mu0)
  = (zeroEntry, Some (ErrStatus StatusNotFound name)).
Proof.
  intros Hok Hname Hnorm.
  destruct (loadIndex_ok Hash64 src mu0 Hok) as [Hacc ->].
  unfold result. rewrite fetchArticle_missing; [done| |].
  - rewrite offsets_scan_lookup by done.
    apply lastEntry_None in Hname. by rewrite Hname.
  - rewrite offsets_scan_lookup by done.
    apply lastEntry_None in Hnorm. by rewrite Hnorm.
Qed.

Lemma fetch_unknown_title_witness :
  result (fetchArticle fnv1a asciiToLower asciiTitle "cy")
         (after (loadIndex fnv1a (fileOf ["7:1:Ada"; "8:2:Bob"]%string)) mu0)
  = (zeroEntry, Some (ErrStatus StatusNotFound "cy")).
Proof.
  apply (fetch_unknown_title fnv1a asciiToLower asciiTitle
           (fileOf ["7:1:Ada"; "8:2:Bob"]%string) "cy").
  - reflexivity.
  - repeat constructor; vm_compute; discriminate.
  - repeat constructor; vm_compute; discriminate.
Defined.

Lemma offsetSize_store h e st o :
  offsetSize (after (store h e) st) !! o
  = if decide (seek e = o)
    then Some (int_wrap (sizeAt (offsetSize st) o + 1))
    else offsetSize st !! o.
Proof.
  unfold after, store, modify; simpl. rewrite lookup_insert.
  case_decide; [by subst|done].
Qed.

Lemma int_wrap_range z : minInt <= int_wrap z <= maxInt.
Proof.
  unfold minInt, maxInt, int_wrap.
  pose proof (Z.mod_pos_bound (z + 2 ^ 63) (2 ^ 64)). lia.
Qed.

Lemma Atoi_fits s v : Atoi s = (v, None) -> minInt <= v <= maxInt.
Proof.
  unfold Atoi. destruct s as [|c r]; [done|].
  destruct (if Ascii.eqb c "-" || Ascii.eqb c "+" then r else String c r)
    as [|c' r']; [done|].
  destruct (digits (String c' r') 0) as [n|]; [|done].
  destruct ((minInt <=? (if Ascii.eqb c "-" then - n else n))
            && ((if Ascii.eqb c "-" then - n else n) <=? maxInt)) eqn:Hfit;
    [|done].
  intros [= <-]. apply andb_true_iff in Hfit as [Hlo Hhi]. lia.
Qed.

Section Counters.
Variable Hash64 : string -> N.

(** The counter of an offset after reading lines, whatever the counters
    were before. *)
Lemma offsetSize_scan_lookup lines : forall st o,
  Forall accepted lines ->
  offsetSize (after (scanLoop Hash64 lines) st) !! o
  = if decide (recordsAt o lines = O) then offsetSize st !! o
    else Some (int_wrap (sizeAt (offsetSize st) o
                         + Z.of_nat (recordsAt o lines))).
Proof.
  induction lines as [|text pre IH] using rev_ind; intros st o Hacc; [done|].
  apply Forall_app in Hacc as [Hpre Htext].
  apply Forall_cons_iff in Htext as [Htext _].
  rewrite scanLoop_snoc, offsetSize_store, recordsAt_snoc by done.
  unfold sizeAt. rewrite IH by done.
  destruct (decide (seek (entryOf text) = o)) as [Hseek|Hseek].
  - destruct (decide ((recordsAt o pre + 1)%nat = O)) as [Hzero|_]; [lia|].
    f_equal.
    destruct (decide (recordsAt o pre = O)) as [->|Hpos]; simpl.
    + f_equal.
    + rewrite int_wrap_add. f_equal. unfold sizeAt. lia.
  - rewrite Nat.add_0_r. done.
Qed.

(** Reading lines never removes a key from either map, whether the lines
    are taken or not. *)
Lemma scanLoop_keeps_keys lines : forall st h o,
  (is_Some (offsets st !! h) ->
   is_Some (offsets (after (scanLoop Hash64 lines) st) !! h))
  /\ (is_Some (offsetSize st !! o) ->
      is_Some (offsetSize (after (scanLoop Hash64 lines) st) !! o)).
Proof.
  induction lines as [|text rest IH]; intros st h o; [done|].
  destruct (accepted_dec text) as [Hacc|Hrej].
  - rewrite after_scanLoop_cons by done.
    destruct (IH (after (store (Hash64 (titleOf text)) (entryOf text)) st) h o)
      as [IHo IHs].
    split; intros Hin.
    + apply IHo. rewrite offsets_store. by case_decide.
    + apply IHs. rewrite offsetSize_store. by case_decide.
  - unfold after. by rewrite scanLoop_cons_rejected.
Qed.
End Counters.

(** The entry [fetchArticle] returns without error is stored in the index. *)
Lemma fetchArticle_stored (Hash64 : string -> N)
    (ToLower strings_Title : string -> string) (name : string) (st : muState)
    (e : indexEntry) :
  result (fetchArticle Hash64 ToLower strings_Title name) st = (e, None) ->
  exists h, offsets st !! h = Some e.
Proof.
  unfold result, fetchArticle, bind, get, ret.
  destruct (offsets st !! Hash64 name) as [e1|] eqn:H1; simpl.
  - intros [= <-]. by exists (Hash64 name).
  - destruct (offsets st !! Hash64 (strings_Title (ToLower name))) as [e2|] eqn:H2;
      simpl; [|done].
    intros [= <-]. by eexists.
Qed.

(** An entry stored by a load into the empty index is the entry of a line
    read, so its offset was counted at least once. *)
Lemma stored_entry_counted (Hash64 : string -> N) (lines : list string)
    (h : N) (e : indexEntry) :
  Forall accepted lines ->
  offsets (after (scanLoop Hash64 lines) mu0) !! h = Some e ->
  (1 <= recordsAt (seek e) lines)%nat.
Proof.
  intros Hacc Hlook. rewrite offsets_scan_lookup in Hlook by done.
  destruct (lastEntry Hash64 h lines) as [e'|] eqn:Hlast; [|done].
  injection Hlook as ->.
  destruct (lastEntry_Some_in Hash64 h lines e Hlast) as (text & Hin & _ & He).
  unfold recordsAt.
  assert (Hmem : text ∈ filter (fun text => seek (entryOf text) = seek e) lines).
  { apply list_elem_of_filter. split; [by rewrite He|by apply list_elem_of_In]. }
  destruct (filter _ lines); [by apply not_elem_of_nil in Hmem|simpl; lia].
Qed.

Lemma decodeLoop_calls_ge {decoder : Type} (archive : articles decoder)
    tries maxTries meta d p calls :
  (calls <= snd (decodeLoop archive tries maxTries meta d p calls))%nat.
Proof.
  revert d p calls. induction tries as [|tries IH]; intros d p calls; simpl; [lia|].
  destruct (xmlDecode archive d p) as [[d' p'] [err|]]; simpl; [lia|].
  destruct (ID p' =? id meta); simpl; [lia|].
  specialize (IH d' p' (S calls)). lia.
Qed.

(** X6: after a load into the empty index that reports no error (of at
    most 2^63 - 1 lines), [mu.offsetSize] has a key exactly for the offsets
    that occur in the stream, and every counter it holds is at least 1 and
    is the number of lines with that offset. *)
Theorem counters_cover_offsets (Hash64 : string -> N) (src : indexSource)
    (o : Z) :
  result (loadIndex Hash64 src) mu0 = None ->
  Z.of_nat (length (scanned src)) <= maxInt ->
  (offsetSize (after (loadIndex Hash64 src) mu0) !! o = None
   <-> recordsAt o (scanned src) = O)
  /\ (forall c, offsetSize (after (loadIndex Hash64 src) mu0) !! o = Some c ->
        1 <= c /\ c = Z.of_nat (recordsAt o (scanned src))).
Proof.
  intros Hok Hlen. destruct (loadIndex_ok Hash64 src mu0 Hok) as [Hacc ->].
  rewrite offsetSize_scan_lookup by done.
  pose proof (recordsAt_le o (scanned src)) as Hle.
  case_decide as Hzero.
  - simpl. rewrite lookup_empty. split; [done|]. intros c Hc. discriminate Hc.
  - split; [split; [discriminate|done]|].
    intros c [= <-]. unfold sizeAt. simpl. rewrite lookup_empty. simpl.
    rewrite int_wrap_fits by (unfold minInt; lia). lia.
Qed.

Lemma counters_cover_offsets_witness :
  (offsetSize (after (loadIndex fnv1a
       (fileOf ["1024:42:Test Article"; "1024:43:Other Page"; "7:1:Ada"]%string))
       mu0) !! 8 = None
   <-> recordsAt 8 ["1024:42:Test Article"; "1024:43:Other Page"; "7:1:Ada"]%string
       = O)
  /\ 1 <= 2
  /\ 2 = Z.of_nat (recordsAt 1024
           ["1024:42:Test Article"; "1024:43:Other Page"; "7:1:Ada"]%string).
Proof.
  split.
  - apply (counters_cover_offsets fnv1a
             (fileOf ["1024:42:Test Article"; "1024:43:Other Page"; "7:1:Ada"]%string)
             8); [reflexivity|vm_compute; discriminate].
  - destruct (counters_cover_offsets fnv1a
                (fileOf ["1024:42:Test Article"; "1024:43:Other Page"; "7:1:Ada"]%string)
                1024) as [_ Hsome]; [reflexivity|vm_compute; discriminate|].
    apply (Hsome 2). reflexivity.
Defined.

(** X7: after a load into the empty index that reports no error (of at
    most 2^63 - 1 lines), every entry [fetchArticle] returns without error
    has a count of at least 1 for its offset; so once the archive is open
    at that offset, [readArticle] on it makes at least one [Decode] call. *)
Theorem fetched_entry_is_tried (Hash64 : string -> N)
    (ToLower strings_Title : string -> string) {decoder : Type}
    (archive : articles decoder) (src : indexSource) (name : string)
    (e : indexEntry) :
  result (loadIndex Hash64 src) mu0 = None ->
  Z.of_nat (length (scanned src)) <= maxInt ->
  result (fetchArticle Hash64 ToLower strings_Title name)
         (after (loadIndex Hash64 src) mu0) = (e, None) ->
  1 <= sizeAt (offsetSize (after (loadIndex Hash64 src) mu0)) (seek e)
  /\ (osOpen archive = None -> fSeek archive (seek e) = None ->
      (1 <= snd (result (readArticleCalls archive e)
                        (after (loadIndex Hash64 src) mu0)))%nat).
Proof.
  intros Hok Hlen Hfetch.
  destruct (loadIndex_ok Hash64 src mu0 Hok) as [Hacc Hafter].
  rewrite Hafter in *.
  destruct (fetchArticle_stored _ _ _ _ _ _ Hfetch) as [h Hh].
  pose proof (stored_entry_counted Hash64 _ h e Hacc Hh) as Hcount.
  assert (Hsize : 1 <= sizeAt (offsetSize (after (scanLoop Hash64 (scanned src)) mu0))
                              (seek e)).
  { rewrite sizeAt_scan_fits by done. lia. }
  split; [done|]. intros Hopen Hseek. unfold result.
  rewrite readArticleCalls_reached by done. simpl.
  destruct (Z.to_nat (sizeAt (offsetSize (after (scanLoop Hash64 (scanned src)) mu0))
                             (seek e))) as [|tries] eqn:Htries; [lia|].
  simpl. destruct (xmlDecode archive _ _) as [[d' p'] [err|]]; simpl; [lia|].
  destruct (ID p' =? id e); simpl; [lia|].
  etrans; [|apply decodeLoop_calls_ge]. lia.
Qed.

Lemma fetched_entry_is_tried_witness :
  1 <= sizeAt (offsetSize (after (loadIndex fnv1a
          (fileOf ["1024:42:Test Article"; "1024:43:Other Page"]%string)) mu0)) 1024
  /\ (1 <= snd (result (readArticleCalls (listArchive (fun _ => []))
                                         (mkEntry 43 1024))
                       (after (loadIndex fnv1a
                          (fileOf ["1024:42:Test Article"; "1024:43:Other Page"]%string))
                          mu0)))%nat.
Proof.
  destruct (fetched_entry_is_tried fnv1a asciiToLower asciiTitle
              (listArchive (fun _ => []))
              (fileOf ["1024:42:Test Article"; "1024:43:Other Page"]%string)
              "other page" (mkEntry 43 1024)) as [Hsize Hcalls];
    [reflexivity|vm_compute; discriminate|reflexivity|].
  split; [exact Hsize|]. apply Hcalls; reflexivity.
Defined.

Lemma loadIndex_ok_started (Hash64 : string -> N) (src : indexSource)
    (st : muState) :
  result (loadIndex Hash64 src) st = None ->
  bleve_New src = None /\ os_Open src = None /\ pbzip2_NewReader src = None
  /\ scanner_Err src = None.
Proof.
  unfold result, loadIndex, bind, ret.
  destruct (bleve_New src); [discriminate|].
  destruct (os_Open src); [discriminate|].
  destruct (pbzip2_NewReader src); [discriminate|].
  by destruct (scanLoop Hash64 (scanned src) st) as [[err|] st'].
Qed.

Lemma loadIndex_succeeds (Hash64 : string -> N) (src : indexSource)
    (st : muState) :
  bleve_New src = None -> os_Open src = None -> pbzip2_NewReader src = None ->
  scanner_Err src = None -> Forall accepted (scanned src) ->
  result (loadIndex Hash64 src) st = None.
Proof.
  intros H1 H2 H3 H4 Hacc. unfold result.
  rewrite loadIndex_started by done. simpl. by rewrite scanLoop_accepted.
Qed.

(** X8: [loadIndex] never removes a key: whatever the source and whether
    the load fails or not, a hash that has an entry before the load has one
    after it and an offset that has a counter before has one after.  (The
    entry under a hash may be replaced.) *)
Theorem load_never_removes (Hash64 : string -> N) (src : indexSource)
    (st : muState) (h : N) (o : Z) :
  (is_Some (offsets st !! h) ->
   is_Some (offsets (after (loadIndex Hash64 src) st) !! h))
  /\ (is_Some (offsetSize st !! o) ->
      is_Some (offsetSize (after (loadIndex Hash64 src) st) !! o)).
Proof.
  assert (Hcases : after (loadIndex Hash64 src) st = st
                   \/ after (loadIndex Hash64 src) st
                      = after (scanLoop Hash64 (scanned src)) st).
  { unfold after, loadIndex, bind, ret.
    destruct (bleve_New src); [by left|].
    destruct (os_Open src); [by left|].
    destruct (pbzip2_NewReader src); [by left|]. right.
    by destruct (scanLoop Hash64 (scanned src) st) as [[err|] st']. }
  destruct Hcases as [->| ->]; [done|]. apply scanLoop_keeps_keys.
Qed.

Lemma load_never_removes_witness :
  is_Some (offsets (after (loadIndex fnv1a (fileOf ["9:3:Ada"; "x"]%string))
                          (after (scanLoop fnv1a ["7:1:Ada"; "8:2:Bob"]%string) mu0))
             !! fnv1a "Bob")
  /\ is_Some (offsetSize (after (loadIndex fnv1a (fileOf ["9:3:Ada"; "x"]%string))
                                (after (scanLoop fnv1a ["7:1:Ada"; "8:2:Bob"]%string) mu0))
                !! 7).
Proof.
  destruct (load_never_removes fnv1a (fileOf ["9:3:Ada"; "x"]%string)
              (after (scanLoop fnv1a ["7:1:Ada"; "8:2:Bob"]%string) mu0)
              (fnv1a "Bob") 7) as [Hkeys Hcounts].
  split; [apply Hkeys|apply Hcounts]; by eexists.
Defined.

(** X9: [loadIndex] is not idempotent.  Running a load that reported no
    error a second time on the index it built reports no error again and
    leaves [mu.offsets] as it was, but doubles every counter of
    [mu.offsetSize] (for a stream of at most 2^62 - 1 lines, so that the
    counters do not wrap). *)
Theorem reload_doubles_counters (Hash64 : string -> N) (src : indexSource)
    (o : Z) :
  result (loadIndex Hash64 src) mu0 = None ->
  2 * Z.of_nat (length (scanned src)) <= maxInt ->
  result (loadIndex Hash64 src) (after (loadIndex Hash64 src) mu0) = None
  /\ offsets (after (loadIndex Hash64 src) (after (loadIndex Hash64 src) mu0))
     = offsets (after (loadIndex Hash64 src) mu0)
  /\ sizeAt (offsetSize (after (loadIndex Hash64 src)
                               (after (loadIndex Hash64 src) mu0))) o
     = 2 * sizeAt (offsetSize (after (loadIndex Hash64 src) mu0)) o.
Proof.
  intros Hok Hlen.
  assert (Hagain : result (loadIndex Hash64 src) (after (loadIndex Hash64 src) mu0)
                   = None).
  { destruct (loadIndex_ok_started Hash64 src mu0 Hok) as (H1 & H2 & H3 & H4).
    destruct (loadIndex_ok Hash64 src mu0 Hok) as [Hacc _].
    by apply loadIndex_succeeds. }
  split; [done|].
  destruct (loadIndex_ok Hash64 src _ Hagain) as [Hacc ->].
  destruct (loadIndex_ok Hash64 src mu0 Hok) as [_ ->].
  pose proof (recordsAt_le o (scanned src)) as Hle.
  split.
  - apply map_eq. intros h. rewrite !offsets_scan_lookup by done.
    by destruct (lastEntry Hash64 h (scanned src)).
  - unfold sizeAt at 1. rewrite offsetSize_scan_lookup by done.
    rewrite sizeAt_scan_fits by (done || lia).
    case_decide as Hzero.
    + fold (sizeAt (offsetSize (after (scanLoop Hash64 (scanned src)) mu0)) o).
      rewrite sizeAt_scan_fits by (done || lia). lia.
    + simpl.
      replace (2 * Z.of_nat (recordsAt o (scanned src)))
        with (Z.of_nat (recordsAt o (scanned src))
              + Z.of_nat (recordsAt o (scanned src))) by lia.
      apply int_wrap_fits. unfold minInt. lia.
Qed.

Lemma reload_doubles_counters_witness :
  result (loadIndex fnv1a (fileOf ["1024:42:Test Article"; "1024:43:Other Page"]%string))
         (after (loadIndex fnv1a
                   (fileOf ["1024:42:Test Article"; "1024:43:Other Page"]%string)) mu0)
  = None
  /\ offsets (after (loadIndex fnv1a
                (fileOf ["1024:42:Test Article"; "1024:43:Other Page"]%string))
                (after (loadIndex fnv1a
                   (fileOf ["1024:42:Test Article"; "1024:43:Other Page"]%string)) mu0))
     = offsets (after (loadIndex fnv1a
                  (fileOf ["1024:42:Test Article"; "1024:43:Other Page"]%string)) mu0)
  /\ sizeAt (offsetSize (after (loadIndex fnv1a
                (fileOf ["1024:42:Test Article"; "1024:43:Other Page"]%string))
                (after (loadIndex fnv1a
                   (fileOf ["1024:42:Test Article"; "1024:43:Other Page"]%string)) mu0)))
            1024
     = 2 * sizeAt (offsetSize (after (loadIndex fnv1a
                (fileOf ["1024:42:Test Article"; "1024:43:Other Page"]%string)) mu0))
                  1024.
Proof.
  apply (reload_doubles_counters fnv1a
           (fileOf ["1024:42:Test Article"; "1024:43:Other Page"]%string) 1024);
    [reflexivity|vm_compute; discriminate].
Defined.

Lemma recordsAt_Permutation o lines lines' :
  lines ≡ₚ lines' -> recordsAt o lines = recordsAt o lines'.
Proof.
  intros Hperm. unfold recordsAt.
  by apply Permutation_length, filter_Permutation.
Qed.

(** X10: the order of the lines matters only for titles that hash alike.
    Loading the lines of a successful load in another order succeeds too
    and gives the same counters; when no two titles have the same hash it
    also gives the same [mu.offsets]. *)
Theorem load_order_independent (Hash64 : string -> N) (src : indexSource)
    (lines' : list string) :
  result (loadIndex Hash64 src) mu0 = None ->
  scanned src ≡ₚ lines' ->
  result (loadIndex Hash64 (withLines src lines')) mu0 = None
  /\ offsetSize (after (loadIndex Hash64 (withLines src lines')) mu0)
     = offsetSize (after (loadIndex Hash64 src) mu0)
  /\ (NoDup (map (fun text => Hash64 (titleOf text)) (scanned src)) ->
      offsets (after (loadIndex Hash64 (withLines src lines')) mu0)
      = offsets (after (loadIndex Hash64 src) mu0)).
Proof.
  intros Hok Hperm.
  assert (Hok' : result (loadIndex Hash64 (withLines src lines')) mu0 = None).
  { destruct (loadIndex_ok_started Hash64 src mu0 Hok) as (H1 & H2 & H3 & H4).
    destruct (loadIndex_ok Hash64 src mu0 Hok) as [Hacc _].
    apply loadIndex_succeeds; try done. simpl. by rewrite <- Hperm. }
  split; [done|].
  destruct (loadIndex_ok Hash64 _ mu0 Hok') as [Hacc' ->].
  destruct (loadIndex_ok Hash64 src mu0 Hok) as [Hacc ->]. simpl in *.
  split.
  - apply map_eq. intros o. rewrite !offsetSize_scan_lookup by done.
    by rewrite (recordsAt_Permutation o _ _ Hperm).
  - intros Hnd. apply map_eq. intros h. rewrite !offsets_scan_lookup by done.
    assert (Hnd' : NoDup (map (fun text => Hash64 (titleOf text)) lines')).
    { by rewrite <- Hperm. }
    assert (Hsame : lastEntry Hash64 h lines' = lastEntry Hash64 h (scanned src)).
    { destruct (lastEntry Hash64 h (scanned src)) as [e|] eqn:Hlast.
      - destruct (lastEntry_Some_in Hash64 h _ e Hlast) as (text & Hin & Hh & <-).
        apply lastEntry_unique; [done| |done].
        apply list_elem_of_In. rewrite <- Hperm. by apply list_elem_of_In.
      - apply lastEntry_None. rewrite <- Hperm. by apply lastEntry_None. }
    by rewrite Hsame.
Qed.

Lemma load_order_independent_witness :
  result (loadIndex fnv1a
            (withLines (fileOf ["7:1:Ada"; "8:2:Bob"; "7:3:Cy"]%string)
                       ["7:3:Cy"; "7:1:Ada"; "8:2:Bob"]%string)) mu0 = None
  /\ offsetSize (after (loadIndex fnv1a
                   (withLines (fileOf ["7:1:Ada"; "8:2:Bob"; "7:3:Cy"]%string)
                              ["7:3:Cy"; "7:1:Ada"; "8:2:Bob"]%string)) mu0)
     = offsetSize (after (loadIndex fnv1a
                     (fileOf ["7:1:Ada"; "8:2:Bob"; "7:3:Cy"]%string)) mu0)
  /\ offsets (after (loadIndex fnv1a
                (withLines (fileOf ["7:1:Ada"; "8:2:Bob"; "7:3:Cy"]%string)
                           ["7:3:Cy"; "7:1:Ada"; "8:2:Bob"]%string)) mu0)
     = offsets (after (loadIndex fnv1a
                  (fileOf ["7:1:Ada"; "8:2:Bob"; "7:3:Cy"]%string)) mu0).
Proof.
  destruct (load_order_independent fnv1a
              (fileOf ["7:1:Ada"; "8:2:Bob"; "7:3:Cy"]%string)
              ["7:3:Cy"; "7:1:Ada"; "8:2:Bob"]%string)
    as (Hok & Hcounts & Hoffsets).
  - reflexivity.
  - simpl. rewrite (Permutation_swap "7:3:Cy"%string "8:2:Bob"%string []).
    apply Permutation_swap.
  - split; [exact Hok|split; [exact Hcounts|]]. apply Hoffsets.
    vm_compute. repeat constructor; rewrite ?list_elem_of_In; simpl; intuition discriminate.
Defined.

(** X11: every entry a successful load into the empty index stores has an
    id and an offset in the range of [int], so that the conversion
    [int64(meta.seek)] of [readArticle] keeps the offset of the line. *)
Theorem stored_entries_fit_int (Hash64 : string -> N) (src : indexSource)
    (h : N) (e : indexEntry) :
  result (loadIndex Hash64 src) mu0 = None ->
  offsets (after (loadIndex Hash64 src) mu0) !! h = Some e ->
  minInt <= id e <= maxInt /\ minInt <= seek e <= maxInt.
Proof.
  intros Hok Hlook. destruct (loadIndex_ok Hash64 src mu0 Hok) as [Hacc Hafter].
  rewrite Hafter, offsets_scan_lookup in Hlook by done.
  destruct (lastEntry Hash64 h (scanned src)) as [e'|] eqn:Hlast; [|done].
  injection Hlook as ->.
  destruct (lastEntry_Some_in Hash64 h _ e Hlast) as (text & Hin & _ & <-).
  assert (Htext : accepted text).
  { rewrite List.Forall_forall in Hacc. by apply Hacc. }
  destruct (parseLine_accepted text _ _ (accepted_parse text Htext))
    as (a & b & _ & Ha & Hb).
  split; [by eapply Atoi_fits|by eapply Atoi_fits].
Qed.

Lemma stored_entries_fit_int_witness :
  minInt <= id (mkEntry (-42) 9223372036854775807) <= maxInt
  /\ minInt <= seek (mkEntry (-42) 9223372036854775807) <= maxInt.
Proof.
  apply (stored_entries_fit_int fnv1a
           (fileOf ["9223372036854775807:-42:Ada"%string]) (fnv1a "Ada"));
    reflexivity.
Defined.

(** ** Further properties of the reader and of the handler *)

Section ReaderErrors.
Context {decoder : Type}.
Variable archive : articles decoder.

(** A failing [Decode] ends the loop with its error. *)
Lemma decodeLoop_error j : forall pre tries maxTries meta d p d' p' err calls,
  decodeN archive j d p = Some pre ->
  decodeAfter archive j d p = Some (d', p') ->
  Forall (fun doc => ID doc <> id meta) pre ->
  snd (xmlDecode archive d' p') = Some err ->
  (j < tries)%nat ->
  decodeLoop archive tries maxTries meta d p calls
  = ((zeroPage, Some err), (calls + S j)%nat).
Proof.
  induction j as [|j IH];
    intros pre tries maxTries meta d p d' p' err calls Hdocs Hstate Hpre Herr Hlt;
    (destruct tries as [|tries]; [lia|]).
  - injection Hstate as <- <-. cbn [decodeLoop].
    destruct (xmlDecode archive d p) as [[d1 p1] [err1|]]; [|done].
    simpl in Herr. injection Herr as ->. f_equal. lia.
  - cbn [decodeN] in Hdocs. cbn [decodeAfter] in Hstate. cbn [decodeLoop].
    destruct (xmlDecode archive d p) as [[d1 p1] [err1|]]; [done|].
    destruct (decodeN archive j d1 p1) as [rest|] eqn:Hrest; [|done].
    injection Hdocs as <-. apply Forall_cons_iff in Hpre as [Hp1 Hpre].
    destruct (Z.eqb_spec (ID p1) (id meta)) as [Heq|_]; [done|].
    rewrite (IH rest tries maxTries meta d1 p1 d' p' err (S calls)) by (done || lia).
    f_equal. lia.
Qed.

(** Next to an error the loop returns the zero page. *)
Lemma decodeLoop_error_zero tries maxTries meta d p calls :
  snd (fst (decodeLoop archive tries maxTries meta d p calls)) <> None ->
  fst (fst (decodeLoop archive tries maxTries meta d p calls)) = zeroPage.
Proof.
  revert d p calls. induction tries as [|tries IH]; intros d p calls; simpl; [done|].
  destruct (xmlDecode archive d p) as [[d' p'] [err|]]; simpl; [done|].
  destruct (ID p' =? id meta); simpl; [done|apply IH].
Qed.

Lemma readArticle_error_zero meta st :
  snd (result (readArticle archive meta) st) <> None ->
  fst (result (readArticle archive meta) st) = zeroPage.
Proof.
  rewrite readArticle_result. unfold result, readArticleCalls, bind, get, ret.
  destruct (osOpen archive); [done|].
  destruct (fSeek archive (seek meta)); [done|]. simpl.
  apply decodeLoop_error_zero.
Qed.
End ReaderErrors.

(** X12: once the archive is open at the block, if [Decode] fails after
    [j] documents have been decoded without a match, with [j] below the
    count of the offset, [readArticle] returns that error with the zero
    page and makes no further [Decode] call: the failure is not retried and
    the remaining tries are not used. *)
Theorem decode_error_propagates {decoder : Type} (archive : articles decoder)
    (meta : indexEntry) (st : muState) (pre : list page) (d' : decoder)
    (p' : page) (err : error) :
  osOpen archive = None -> fSeek archive (seek meta) = None ->
  decodeN archive (length pre) (xmlNewDecoder archive (seek meta)) zeroPage
  = Some pre ->
  decodeAfter archive (length pre) (xmlNewDecoder archive (seek meta)) zeroPage
  = Some (d', p') ->
  Forall (fun doc => ID doc <> id meta) pre ->
  snd (xmlDecode archive d' p') = Some err ->
  (length pre < Z.to_nat (sizeAt (offsetSize st) (seek meta)))%nat ->
  result (readArticleCalls archive meta) st
  = ((zeroPage, Some err), S (length pre))
  /\ result (readArticle archive meta) st = (zeroPage, Some err).
Proof.
  intros Hopen Hseek Hdocs Hstate Hpre Herr Hlt.
  assert (Hcalls : result (readArticleCalls archive meta) st
                   = ((zeroPage, Some err), S (length pre))).
  { unfold result. rewrite readArticleCalls_reached by done. simpl.
    by rewrite (decodeLoop_error archive (length pre) pre _ _ _ _ _ d' p' err O). }
  split; [done|]. by rewrite readArticle_result, Hcalls.
Qed.

Lemma decode_error_propagates_witness :
  result (readArticleCalls
            (listArchive (fun _ => [inl (doc 42 "Test Article");
                                    inr (ErrExt "unexpected EOF");
                                    inl (doc 43 "Other Page")]))
            (mkEntry 43 1024))
         (after (scanLoop fnv1a
                   ["1024:42:Test Article"; "1024:43:Other Page"; "1024:44:Third"]%string)
                mu0)
  = ((zeroPage, Some (ErrExt "unexpected EOF")), 2%nat)
  /\ result (readArticle
               (listArchive (fun _ => [inl (doc 42 "Test Article");
                                       inr (ErrExt "unexpected EOF");
                                       inl (doc 43 "Other Page")]))
               (mkEntry 43 1024))
            (after (scanLoop fnv1a
                      ["1024:42:Test Article"; "1024:43:Other Page"; "1024:44:Third"]%string)
                   mu0)
     = (zeroPage, Some (ErrExt "unexpected EOF")).
Proof.
  apply (decode_error_propagates
           (listArchive (fun _ => [inl (doc 42 "Test Article");
                                   inr (ErrExt "unexpected EOF");
                                   inl (doc 43 "Other Page")]))
           (mkEntry 43 1024) _ [doc 42 "Test Article"]
           [inr (ErrExt "unexpected EOF"); inl (doc 43 "Other Page")]
           (doc 42 "Test Article") (ErrExt "unexpected EOF")); try reflexivity.
  - repeat constructor. vm_compute. discriminate.
  - vm_compute. lia.
Defined.

(** X13: a lookup that returns an error returns nothing else: next to an
    error [fetchArticle] returns the zero entry, [randomArticleHash] the
    hash 0, and [readArticle] and [randomArticle] the zero page, never a
    page decoded on the way. *)
Theorem errors_carry_zero_values (Hash64 : string -> N)
    (ToLower strings_Title : string -> string) {decoder : Type}
    (archive : articles decoder) (st : muState) (name : string)
    (choice : nat) (meta : indexEntry) :
  (snd (result (fetchArticle Hash64 ToLower strings_Title name) st) <> None ->
   fst (result (fetchArticle Hash64 ToLower strings_Title name) st) = zeroEntry)
  /\ (snd (result (randomArticleHash choice) st) <> None ->
      fst (result (randomArticleHash choice) st) = 0%N)
  /\ (snd (result (readArticle archive meta) st) <> None ->
      fst (result (readArticle archive meta) st) = zeroPage)
  /\ (snd (result (randomArticle archive choice) st) <> None ->
      fst (result (randomArticle archive choice) st) = zeroPage).
Proof.
  split; [|split; [|split; [apply readArticle_error_zero|]]].
  - unfold result, fetchArticle, bind, get, ret.
    destruct (offsets st !! Hash64 name); [done|].
    by destruct (offsets st !! Hash64 (strings_Title (ToLower name))).
  - unfold result, randomArticleHash, bind, get, ret.
    by destruct ((map_to_list (offsets st)).*1).
  - unfold result, randomArticle, randomArticleHash, bind, get, ret.
    destruct ((map_to_list (offsets st)).*1) as [|k keys]; [done|]. simpl.
    apply readArticle_error_zero.
Qed.

Lemma errors_carry_zero_values_witness :
  fst (result (readArticle
                 (listArchive (fun _ => [inl (doc 42 "Test Article");
                                         inr (ErrExt "unexpected EOF")]))
                 (mkEntry 43 1024))
              (after (scanLoop fnv1a
                        ["1024:42:Test Article"; "1024:43:Other Page"]%string) mu0))
  = zeroPage.
Proof.
  destruct (errors_carry_zero_values fnv1a asciiToLower asciiTitle
              (listArchive (fun _ => [inl (doc 42 "Test Article");
                                      inr (ErrExt "unexpected EOF")]))
              (after (scanLoop fnv1a
                        ["1024:42:Test Article"; "1024:43:Other Page"]%string) mu0)
              "x" 0 (mkEntry 43 1024)) as (_ & _ & Hread & _).
  apply Hread. vm_compute. discriminate.
Defined.

Section ServerFacts.
Variable Hash64 : string -> N.
Variables ToLower strings_Title : string -> string.
Context {decoder : Type}.
Variable archive : articles decoder.
Variable json_Marshal : page -> string * option error.

Lemma fetchArticle_frame name st :
  after (fetchArticle Hash64 ToLower strings_Title name) st = st.
Proof.
  unfold after, fetchArticle, bind, get, ret.
  destruct (offsets st !! Hash64 name); [done|].
  by destruct (offsets st !! Hash64 (strings_Title (ToLower name))).
Qed.

(** The handler, by the results of the two lookups it makes. *)
Lemma searchHandler_unfold q st :
  searchHandler Hash64 ToLower strings_Title archive json_Marshal q st
  = (match result (fetchArticle Hash64 ToLower strings_Title q) st with
     | (_, Some _) => []
     | (article, None) =>
         match result (readArticle archive article) st with
         | (_, Some _) => []
         | (pg, None) =>
             match json_Marshal pg with
             | (_, Some _) => []
             | (marshal, None) =>
                 [HeaderSet "Access-Control-Allow-Origin" "*"; Write marshal]
             end
         end
     end, st).
Proof.
  pose proof (fetchArticle_frame q st) as Hfetch.
  unfold searchHandler, bind, result, after in *.
  destruct (fetchArticle Hash64 ToLower strings_Title q st) as [[article err] st1].
  simpl in Hfetch. subst st1. destruct err; [done|]. simpl.
  pose proof (readArticle_frame archive article st) as Hread.
  unfold after in Hread.
  destruct (readArticle archive article st) as [[pg err] st2].
  simpl in Hread. subst st2. destruct err; [done|]. simpl.
  by destruct (json_Marshal pg) as [marshal [err|]].
Qed.
End ServerFacts.

(** X14: the [/search] handler leaves the index as it is and calls its
    writer either not at all or exactly twice: it sets the CORS header and
    then writes the JSON of a page, and it does so only when [fetchArticle]
    found an entry, [readArticle] returned a page for it, which then has
    the entry's id, and [json.Marshal] succeeded.  When the lookup fails it
    writes nothing: no body, and no status either, the 404 of the error
    never reaches the writer. *)
Theorem search_writes_only_on_success (Hash64 : string -> N)
    (ToLower strings_Title : string -> string) {decoder : Type}
    (archive : articles decoder) (json_Marshal : page -> string * option error)
    (q : string) (st : muState) :
  after (searchHandler Hash64 ToLower strings_Title archive json_Marshal q) st = st
  /\ (result (searchHandler Hash64 ToLower strings_Title archive json_Marshal q) st
      = []
      \/ exists article pg body,
           result (fetchArticle Hash64 ToLower strings_Title q) st = (article, None)
           /\ result (readArticle archive article) st = (pg, None)
           /\ ID pg = id article
           /\ json_Marshal pg = (body, None)
           /\ result (searchHandler Hash64 ToLower strings_Title archive
                        json_Marshal q) st
              = [HeaderSet "Access-Control-Allow-Origin" "*"; Write body])
  /\ (snd (result (fetchArticle Hash64 ToLower strings_Title q) st) <> None ->
      result (searchHandler Hash64 ToLower strings_Title archive json_Marshal q) st
      = []).
Proof.
  pose proof (searchHandler_unfold Hash64 ToLower strings_Title archive
                json_Marshal q st) as Hrun.
  assert (Hres :
    result (searchHandler Hash64 ToLower strings_Title archive json_Marshal q) st
    = fst (searchHandler Hash64 ToLower strings_Title archive json_Marshal q st))
    by reflexivity.
  rewrite Hres. unfold after. rewrite Hrun. cbn [fst snd]. clear Hres Hrun.
  split; [done|].
  destruct (result (fetchArticle Hash64 ToLower strings_Title q) st)
    as [article [err|]] eqn:Hfetch; simpl; [split; [by left|done]|].
  split; [|done].
  destruct (result (readArticle archive article) st) as [pg [err|]] eqn:Hread;
    [by left|].
  destruct (json_Marshal pg) as [body [err|]] eqn:Hjson; [by left|].
  right. exists article, pg, body. repeat split; try done.
  pose proof (readArticle_result archive article st) as Hres.
  rewrite Hread in Hres.
  assert (Hnone : snd (fst (result (readArticleCalls archive article) st)) = None)
    by (by rewrite <- Hres).
  unfold result, readArticleCalls, bind, get, ret in Hres, Hnone.
  destruct (osOpen archive); [done|].
  destruct (fSeek archive (seek article)); [done|]. simpl in Hres, Hnone.
  apply decodeLoop_found in Hnone. by rewrite <- Hres in Hnone.
Qed.

Lemma search_writes_only_on_success_witness :
  result (searchHandler fnv1a asciiToLower asciiTitle
            (listArchive (fun _ => [inl (doc 42 "Test Article")])) titleMarshal
            "no such page")
         (after (scanLoop fnv1a ["1024:42:Test Article"]%string) mu0)
  = [].
Proof.
  destruct (search_writes_only_on_success fnv1a asciiToLower asciiTitle
              (listArchive (fun _ => [inl (doc 42 "Test Article")])) titleMarshal
              "no such page"
              (after (scanLoop fnv1a ["1024:42:Test Article"]%string) mu0))
    as (_ & _ & Hmiss).
  apply Hmiss. vm_compute. discriminate.
Defined.



(** X16: after a load into the empty index that reports no error, of at
    least one and at most 2^63 - 1 lines, [randomArticle] does not fail
    with ["no articles"]: it reads the article of the entry of some line of
    the stream, with a count of at least 1 for its offset. *)
Theorem random_article_is_loaded (Hash64 : string -> N) {decoder : Type}
    (archive : articles decoder) (src : indexSource) (choice : nat) :
  result (loadIndex Hash64 src) mu0 = None ->
  scanned src <> [] ->
  Z.of_nat (length (scanned src)) <= maxInt ->
  exists text,
    In text (scanned src)
    /\ randomArticle archive choice (after (loadIndex Hash64 src) mu0)
       = readArticle archive (entryOf text) (after (loadIndex Hash64 src) mu0)
    /\ 1 <= sizeAt (offsetSize (after (loadIndex Hash64 src) mu0))
                   (seek (entryOf text)).
Proof.
  intros Hok Hne Hlen. destruct (loadIndex_ok Hash64 src mu0 Hok) as [Hacc ->].
  set (st := after (scanLoop Hash64 (scanned src)) mu0).
  unfold randomArticle, randomArticleHash, bind, get, ret.
  destruct ((map_to_list (offsets st)).*1) as [|k keys] eqn:Hkeys.
  - exfalso. apply fmap_nil_inv, map_to_list_empty_iff in Hkeys.
    destruct (scanned src) as [|text rest] eqn:Hlines using rev_ind; [done|].
    clear IHrest. apply Forall_app in Hacc as [Hrest Htext].
    apply Forall_cons_iff in Htext as [Htext _].
    assert (Hlook : offsets st !! Hash64 (titleOf text) = Some (entryOf text)).
    { unfold st. by apply offsets_scan_last. }
    rewrite Hkeys, lookup_empty in Hlook. discriminate Hlook.
  - set (h := nth (choice mod length (k :: keys)) (k :: keys) k).
    assert (Hin : In h (map_to_list (offsets st)).*1).
    { rewrite Hkeys. apply nth_In. apply Nat.mod_upper_bound. simpl. lia. }
    destruct (keys_in_map _ _ Hin) as [e He]. simpl. rewrite He. simpl.
    pose proof (stored_entry_counted Hash64 _ h e Hacc He) as Hcount.
    unfold st in He. rewrite offsets_scan_lookup in He by done.
    destruct (lastEntry Hash64 h (scanned src)) as [e'|] eqn:Hlast; [|done].
    injection He as ->.
    destruct (lastEntry_Some_in Hash64 h _ e Hlast) as (text & Htext & _ & <-).
    exists text. split; [done|]. split; [done|].
    unfold st. rewrite sizeAt_scan_fits by done. lia.
Qed.

Lemma random_article_is_loaded_witness :
  exists text,
    In text ["1024:42:Test Article"; "1024:43:Other Page"]%string
    /\ randomArticle (listArchive (fun _ => [inl (doc 42 "Test Article")])) 3
         (after (loadIndex fnv1a
                   (fileOf ["1024:42:Test Article"; "1024:43:Other Page"]%string)) mu0)
       = readArticle (listArchive (fun _ => [inl (doc 42 "Test Article")]))
           (entryOf text)
           (after (loadIndex fnv1a
                     (fileOf ["1024:42:Test Article"; "1024:43:Other Page"]%string)) mu0)
    /\ 1 <= sizeAt (offsetSize (after (loadIndex fnv1a
                 (fileOf ["1024:42:Test Article"; "1024:43:Other Page"]%string)) mu0))
                   (seek (entryOf text)).
Proof.
  apply (random_article_is_loaded fnv1a
           (listArchive (fun _ => [inl (doc 42 "Test Article")]))
           (fileOf ["1024:42:Test Article"; "1024:43:Other Page"]%string) 3).
  - reflexivity.
  - discriminate.
  - vm_compute. discriminate.
Defined.
